(** * MLB scraper (scraper.py): table parser, type coercion, team lookup

  A shallow embedding of the pure core of [scraper.py]:
  - [clean_raw]   : raw page text and a header count to a data frame;
  - [data_mung]   : in-place coercion of the columns of a data frame;
  - [change_url]  : lookup of a team in the static [teams] list.

  Python values are modelled as follows.  A [str] is a [string], a list is
  a [list], an [int] is a [Z].  A call that may raise returns a
  [result]: [Ok v] for a normal return, [Raise e] for the exception [e].
  An object that is mutated in place (the data frame given to [data_mung],
  the [TeamStats] instance) is passed in and handed back explicitly. *)

From Stdlib Require Import ZArith String Ascii SpecFloat.
From stdpp Require Import base list strings.

Local Open Scope Z_scope.

(** ** Python primitives *)

Module Py.

(** The exception classes that occur in the modelled code. *)
Inductive exn := ValueError | TypeError | OverflowError | IndexError | KeyError.

#[global] Instance exn_eq_dec : EqDecision exn.
Proof. solve_decision. Defined.

Inductive result (A : Type) :=
| Ok (a : A)
| Raise (e : exn).
Arguments Ok {A} a.
Arguments Raise {A} e.

#[global] Instance result_ret : MRet result := fun _ a => Ok a.
#[global] Instance result_bind : MBind result := fun _ _ f m =>
  match m with
  | Ok a => f a
  | Raise e => Raise e
  end.

(** [len(s)] for a string and for a list. *)
Definition len_str (s : string) : Z := Z.of_nat (String.length s).
Definition len {A} (l : list A) : Z := Z.of_nat (length l).

(** [range(n)]: the integers [0 .. n-1], empty when [n <= 0]. *)
Definition range (n : Z) : list Z := Z.of_nat <$> seq 0 (Z.to_nat n).

(** [l[i]] for a list: negative indices count from the end, anything out
    of range raises [IndexError]. *)
Definition getitem {A} (l : list A) (i : Z) : result A :=
  let j := if i <? 0 then i + len l else i in
  if j <? 0 then Raise IndexError
  else match l !! Z.to_nat j with
       | Some x => Ok x
       | None => Raise IndexError
       end.

(** Clamping of a slice bound [k] for a sequence of length [n]. *)
Definition slice_bound (n : nat) (k : Z) : nat :=
  if k <? 0 then Z.to_nat (Z.max 0 (Z.of_nat n + k))
  else Z.to_nat (Z.min k (Z.of_nat n)).

(** [l[:k]] and [l[k:]]. *)
Definition slice_to {A} (l : list A) (k : Z) : list A :=
  take (slice_bound (length l) k) l.
Definition slice_from {A} (l : list A) (k : Z) : list A :=
  drop (slice_bound (length l) k) l.

(** [s.split(sep)] for a one-character separator: the pieces between the
    occurrences of [sep]; always at least one piece. *)
Fixpoint split (sep : ascii) (s : string) : list string :=
  match s with
  | EmptyString => [EmptyString]
  | String c s' =>
      if Ascii.eqb c sep then EmptyString :: split sep s'
      else match split sep s' with
           | [] => [String c EmptyString]
           | w :: ws => String c w :: ws
           end
  end.

(** [s.lower()], on ASCII letters. *)
Definition lower_char (c : ascii) : ascii :=
  let n := nat_of_ascii c in
  if ((65 <=? n) && (n <=? 90))%nat then ascii_of_nat (n + 32) else c.

Fixpoint lower (s : string) : string :=
  match s with
  | EmptyString => EmptyString
  | String c s' => String (lower_char c) (lower s')
  end.

(** [needle in hay] for strings. *)
Fixpoint contains (needle hay : string) : bool :=
  String.prefix needle hay ||
  match hay with
  | EmptyString => false
  | String _ hay' => contains needle hay'
  end.

(** [x in l] for a list of strings. *)
Definition In_list (x : string) (l : list string) : bool :=
  existsb (String.eqb x) l.

End Py.

Import Py.

Definition newline : ascii := ascii_of_nat 10.
Definition space : ascii := ascii_of_nat 32.

(** ** pandas: series, data frames and [astype] *)

(** The scalar conversions that numpy performs under [Series.astype].  They
  belong to the library, not to [scraper.py], so the development is
  parametric in them.  A cell of an [object] column is a Python [str], or
  [None] where the frame constructor padded a short row. *)
Class NumpyCast := {
  float32 : Type;
  (** [int(x)] stored into an integer array. *)
  int_of_object : option string → result Z;
  (** [float(x)] stored into a [float32] array. *)
  float32_of_object : option string → result float32;
  (** cast of an integer array to [float32]. *)
  float32_of_int : Z → float32;
  (** cast of a [float32] array to integers. *)
  int_of_float32 : float32 → result Z;
}.

Section Pandas.
Context `{NumpyCast}.

(** A column: its dtype together with its values. *)
Inductive Series :=
| ObjectSeries (vs : list (option string))
| IntSeries (vs : list Z)
| Float32Series (vs : list float32).

Definition series_len (s : Series) : nat :=
  match s with
  | ObjectSeries vs => length vs
  | IntSeries vs => length vs
  | Float32Series vs => length vs
  end.

(** The two dtypes [data_mung] asks for: ['int'] and ['float32']. *)
Inductive dtype := int_dtype | float32_dtype.

(** Element-wise conversion, left to right; the first exception wins. *)
Fixpoint cast_all {A B} (f : A → result B) (vs : list A) : result (list B) :=
  match vs with
  | [] => Ok []
  | v :: vs' => b ← f v; bs ← cast_all f vs'; Ok (b :: bs)
  end.

(** [s.astype(d)]. A series that already has dtype [d] is returned as it
    is. *)
Definition astype (s : Series) (d : dtype) : result Series :=
  match d, s with
  | int_dtype, ObjectSeries vs => zs ← cast_all int_of_object vs; Ok (IntSeries zs)
  | int_dtype, IntSeries vs => Ok (IntSeries vs)
  | int_dtype, Float32Series vs => zs ← cast_all int_of_float32 vs; Ok (IntSeries zs)
  | float32_dtype, ObjectSeries vs => fs ← cast_all float32_of_object vs; Ok (Float32Series fs)
  | float32_dtype, IntSeries vs => Ok (Float32Series (float32_of_int <$> vs))
  | float32_dtype, Float32Series vs => Ok (Float32Series vs)
  end.

(** A data frame: a default integer index [0 .. index-1] and the columns
    in order, each with its name. *)
Record DataFrame := {
  index : nat;
  cols : list (string * Series);
}.

(** [df.columns.tolist()] *)
Definition columns (df : DataFrame) : list string := fst <$> cols df.

(** [df[col]]: the column named [col].  In a stat table a name occurs
    once; the search stops at the first column of that name. *)
Fixpoint lookup_col (col : string) (cols : list (string * Series)) : result Series :=
  match cols with
  | [] => Raise KeyError
  | (n, s) :: cols' => if String.eqb n col then Ok s else lookup_col col cols'
  end.

Definition getcol (df : DataFrame) (col : string) : result Series :=
  lookup_col col (cols df).

(** [df[col] = s]: replaces the column named [col]; a new name is added as
    the last column. *)
Fixpoint assign_col (col : string) (s : Series) (cols : list (string * Series))
  : list (string * Series) :=
  match cols with
  | [] => [(col, s)]
  | (n, s0) :: cols' =>
      if String.eqb n col then (n, s) :: cols'
      else (n, s0) :: assign_col col s cols'
  end.

Definition setcol (df : DataFrame) (col : string) (s : Series) : DataFrame :=
  {| index := index df; cols := assign_col col s (cols df) |}.

(** [pd.DataFrame(rows, columns=headers)] for a list of lists of strings.
    Short rows are padded with [None] up to the longest row; the number of
    names must be the length of the longest row, unless there is no row
    at all. *)
Definition row_width (rows : list (list string)) : nat :=
  max_list (length <$> rows).

Definition column_of_rows (rows : list (list string)) (j : nat) : Series :=
  ObjectSeries ((λ r, r !! j) <$> rows).

Definition make_DataFrame (rows : list (list string)) (headers : list string)
  : result DataFrame :=
  match rows with
  | [] => Ok {| index := 0; cols := (λ h, (h, ObjectSeries [])) <$> headers |}
  | _ =>
      if decide (row_width rows = length headers) then
        Ok {| index := length rows;
              cols := imap (λ j h, (h, column_of_rows rows j)) headers |}
      else Raise ValueError
  end.

(** The invariant of a stat table: unique column names, and every column
    has one value per row. *)
Definition StatTable (df : DataFrame) : Prop :=
  NoDup (columns df) ∧ Forall (λ c, series_len c.2 = index df) (cols df).

(** ** The table parser *)

(** A [for] loop whose body may raise. *)
Fixpoint for_each {S X} (body : S → X → result S) (xs : list X) (s : S) : result S :=
  match xs with
  | [] => Ok s
  | x :: xs' => s' ← body s x; for_each body xs' s'
  end.

(** The indices the [for row in range(len(data) - 2)] loop visits. *)
Definition scan_indices (data : list string) : list Z := range (len data - 2).

(** The body of the loop: the test on [data[row]] and the construction of
    one row, appended to [df_lst]. *)
Definition scan_body (data : list string) (df_lst : list (list string)) (row : Z)
  : result (list (list string)) :=
  line ← getitem data row;
  if len_str line <=? 2 then
    team_name ← getitem data (row + 1);
    num_data ← getitem data (row + 2);
    let clean_data :=
      fold_left (λ acc number, acc ++ [number]) (split space num_data) [team_name] in
    Ok (df_lst ++ [clean_data])
  else Ok df_lst.

Definition scan (data : list string) : result (list (list string)) :=
  for_each (scan_body data) (scan_indices data) [].

(** [clean_raw(web_data, head_ind_start)], with [web_data] given by its
    [.text]. *)
Definition clean_raw (text : string) (head_ind_start : Z) : result DataFrame :=
  let raw_data := split newline text in
  let headers := slice_to raw_data head_ind_start in
  let data := slice_from raw_data head_ind_start in
  df_lst ← scan data;
  make_DataFrame df_lst headers.


(** ** Type coercion *)

Definition float_cols : list string :=
  ["AVG"; "OBP"; "SLG"; "OPS"; "IP"; "ERA"; "WHIP"; "AVG"].

(** The body of the [try] block for one column. *)
Definition mung_try (stats_df : DataFrame) (col : string) : result DataFrame :=
  if negb (In_list col float_cols) then
    s ← getcol stats_df col;
    s' ← astype s int_dtype;
    Ok (setcol stats_df col s')
  else if In_list col float_cols then
    s ← getcol stats_df col;
    s' ← astype s float32_dtype;
    Ok (setcol stats_df col s')
  else Ok stats_df.

(** The loop over [stats_df.columns.tolist()].  The frame is mutated in
    place, so the loop hands back the frame as it stands when the call
    ends together with the way it ended: [Ok ()] for a normal return,
    [Raise e] for an exception that [except ValueError] does not catch. *)
Fixpoint mung_loop (names : list string) (stats_df : DataFrame)
  : DataFrame * result unit :=
  match names with
  | [] => (stats_df, Ok ())
  | col :: names' =>
      match mung_try stats_df col with
      | Ok df' => mung_loop names' df'
      | Raise ValueError => mung_loop names' stats_df
      | Raise e => (stats_df, Raise e)
      end
  end.

Definition data_mung (stats_df : DataFrame) : DataFrame * result unit :=
  mung_loop (columns stats_df) stats_df.

(** ** The session and the team directory *)

Definition teams : list (string * string) :=
  [("Arizona Diamondbacks", "dbacks");
   ("Atlanta Braves", "braves");
   ("Baltimore Orioles", "orioles");
   ("Boston Red Sox", "redsox");
   ("Chicago Cubs", "cubs");
   ("Chicago White Sox", "whitesox");
   ("Cincinnati Reds", "reds");
   ("Cleveland Indians", "indians");
   ("Colorado Rockies", "rockies");
   ("Detroit Tigers", "tigers");
   ("Houston Astros", "astros");
   ("Kansas City Royals", "royals");
   ("Los Angeles Angels", "angels");
   ("Los Angeles Dodgers", "dodgers");
   ("Miami Marlins", "marlins");
   ("Milwaukee Brewers", "brewers");
   ("Minnesota Twins", "twins");
   ("New York Mets", "mets");
   ("New York Yankees", "yankees");
   ("Oakland Athletics", "athletics");
   ("Philadeliphia Phillies", "phillies");
   ("Pittsburgh Pirates", "pirates");
   ("San Diego Padres", "padres");
   ("San Francisco Giants", "giants");
   ("Seattle Mariners", "mariners");
   ("St. Louis Cardenals", "cardenals");
   ("Tampa Bay Rays", "rays");
   ("Texas Rangers", "rangers");
   ("Toronto Blue Jays", "bluejays");
   ("Washington Nationals", "nationals")].

Record TeamStats := {
  headless : bool;
  url : string;
  hit_stats : option DataFrame;
  pitch_stats : option DataFrame;
}.

(** [TeamStats()] *)
Definition TeamStats_init : TeamStats :=
  {| headless := true;
     url := "https://www.mlb.com/yankees/stats/team/";
     hit_stats := None;
     pitch_stats := None |}.

(** [get_stats] *)
Definition get_stats (self : TeamStats) : option DataFrame * option DataFrame :=
  (hit_stats self, pitch_stats self).

(** The test of the list comprehension in [change_url]. *)
Definition team_matches (team_name : string) (n : string * string) : bool :=
  contains (lower team_name) (lower n.1).

(** [[n[1] for n in teams if team_name.lower() in n[0].lower()]] *)
Definition matching_slugs (team_name : string) : list string :=
  snd <$> List.filter (team_matches team_name) teams.

Definition team_url (slug : string) : string :=
  "https://www.mlb.com/" +:+ slug +:+ "/stats/team/".

(** [change_url]: the instance as the call leaves it, and how the call
    ended. *)
Definition change_url (self : TeamStats) (team_name : string)
  : TeamStats * result unit :=
  let new_team := matching_slugs team_name in
  match getitem new_team 0 with
  | Ok slug =>
      ({| headless := headless self;
          url := team_url slug;
          hit_stats := hit_stats self;
          pitch_stats := pitch_stats self |}, Ok ())
  | Raise e => (self, Raise e)
  end.

(** [pull_data].  The browser is outside the program: it is given as
    [browse], which maps the address it is sent to to the text of the
    hitting block and, after the two clicks, the text of the pitching
    block.  The assignments to [self.hit_stats] and [self.pitch_stats] take
    place as soon as the frame is parsed; [data_mung] then changes the
    stored frames in place. *)
Definition pull_data (self : TeamStats) (browse : string → string * string)
  : TeamStats * result unit :=
  let '(team_stats_hit, team_stats_pitch) := browse (url self) in
  match clean_raw team_stats_hit 18 with
  | Raise e => (self, Raise e)
  | Ok hit =>
      match clean_raw team_stats_pitch 21 with
      | Raise e =>
          ({| headless := headless self;
              url := url self;
              hit_stats := Some hit;
              pitch_stats := pitch_stats self |}, Raise e)
      | Ok pitch =>
          match data_mung hit with
          | (hit', Raise e) =>
              ({| headless := headless self;
                  url := url self;
                  hit_stats := Some hit';
                  pitch_stats := Some pitch |}, Raise e)
          | (hit', Ok _) =>
              let '(pitch', r) := data_mung pitch in
              ({| headless := headless self;
                  url := url self;
                  hit_stats := Some hit';
                  pitch_stats := Some pitch' |}, r)
          end
      end
  end.

End Pandas.

(** ** An instance of the conversions for plain decimal literals

  The conversions at the literals found in a stats table: an optional sign
  and decimal digits for [int], with an optional fractional part for
  [float].  [float32] is IEEE binary32, reached as numpy does through a
  binary64 value.  Integers are 64 bits wide.  The instance serves to run
  the definitions on concrete tables; every general result below holds
  for any [NumpyCast]. *)

Module DecimalCast.

Definition digit (c : ascii) : option Z :=
  let n := nat_of_ascii c in
  if ((48 <=? n) && (n <=? 57))%nat then Some (Z.of_nat (n - 48)) else None.

(** Reads a run of digits: the value read after [acc], the number of
    digits read after [count], and the rest of the string. *)
Fixpoint digits (s : string) (acc : Z) (count : nat) : Z * nat * string :=
  match s with
  | EmptyString => (acc, count, s)
  | String c s' =>
      match digit c with
      | Some d => digits s' (10 * acc + d) (S count)
      | None => (acc, count, s)
      end
  end.

Definition sign (s : string) : bool * string :=
  match s with
  | String c s' =>
      if Ascii.eqb c "-" then (true, s')
      else if Ascii.eqb c "+" then (false, s')
      else (false, s)
  | EmptyString => (false, s)
  end.

Definition parse_int (s : string) : option Z :=
  let '(neg, s1) := sign s in
  match digits s1 0 0 with
  | (n, S _, EmptyString) => Some (if neg : bool then - n else n)
  | _ => None
  end.

(** Sign, digits as one integer, and number of digits after the point. *)
Definition parse_decimal (s : string) : option (bool * Z * nat) :=
  let '(neg, s1) := sign s in
  let '(n, c1, s2) := digits s1 0 0 in
  match s2 with
  | EmptyString => if c1 is O then None else Some (neg, n, O)
  | String c s3 =>
      if Ascii.eqb c "." then
        let '(m, c2, s4) := digits s3 n 0 in
        match s4, (c1 + c2)%nat with
        | EmptyString, S _ => Some (neg, m, c2)
        | _, _ => None
        end
      else None
  end.

(** [m / d] rounded to the nearest value of the format, ties to even. *)
Definition round_ratio (prec emax : Z) (neg : bool) (m d : Z) : spec_float :=
  match m with
  | Z0 => S754_zero neg
  | _ =>
      let '(q, e, l) := SFdiv_core_binary prec emax m 0 d 0 in
      binary_round_aux prec emax neg q e l
  end.

Definition binary32_of_binary64 (x : spec_float) : spec_float :=
  match x with
  | S754_finite s m e => binary_round 24 128 s m e
  | _ => x
  end.

Definition int64_range (z : Z) : bool := (- 2 ^ 63 <=? z) && (z <? 2 ^ 63).

Definition int_of_str (o : option string) : result Z :=
  match o with
  | None => Raise TypeError
  | Some s =>
      match parse_int s with
      | Some z => if int64_range z then Ok z else Raise OverflowError
      | None => Raise ValueError
      end
  end.

Definition float_of_str (o : option string) : result spec_float :=
  match o with
  | None => Ok S754_nan
  | Some s =>
      match parse_decimal s with
      | Some (neg, m, k) =>
          Ok (binary32_of_binary64 (round_ratio 53 1024 neg m (10 ^ Z.of_nat k)))
      | None => Raise ValueError
      end
  end.

Definition float_of_int (z : Z) : spec_float := binary_normalize 24 128 z 0 false.

(** Truncation toward zero; a value that is not finite does not convert. *)
Definition int_of_float (x : spec_float) : result Z :=
  match x with
  | S754_zero _ => Ok 0
  | S754_finite s m e =>
      let a := if 0 <=? e then Z.pos m * 2 ^ e else Z.pos m / 2 ^ (- e) in
      Ok (if s then - a else a)
  | _ => Raise ValueError
  end.

#[export] Instance cast : NumpyCast := {|
  float32 := spec_float;
  int_of_object := int_of_str;
  float32_of_object := float_of_str;
  float32_of_int := float_of_int;
  int_of_float32 := int_of_float;
|}.

End DecimalCast.

(** ** The rows the parser recognises, by position *)

Section Markers.

(** The line at position [i] is a marker: it has at most 2 characters. *)
Definition short_line (data : list string) (i : nat) : bool :=
  match data !! i with
  | Some line => len_str line <=? 2
  | None => false
  end.

(** The positions of the markers among the lines that have two lines
    after them, in increasing order. *)
Definition marker_indices (data : list string) : list nat :=
  List.filter (short_line data) (seq 0 (length data - 2)).

(** The row of the marker at position [i]: the next line, then the fields
    of the line after it. *)
Definition row_at (data : list string) (i : nat) : list string :=
  data !!! (i + 1)%nat :: split space (data !!! (i + 2)%nat).

End Markers.

(** ** The coercion policy, column by column *)

Section Policy.
Context `{NumpyCast}.

(** The float-column set, without the repeated name. *)
Definition float_names : list string :=
  ["AVG"; "OBP"; "SLG"; "OPS"; "IP"; "ERA"; "WHIP"].

(** The dtype [data_mung] asks for the column named [col]. *)
Definition target (col : string) : dtype :=
  if In_list col float_cols then float32_dtype else int_dtype.

(** One column after coercion: converted when [astype] returns, left as
    it is when [astype] raises. *)
Definition coerce (col : string) (s : Series) : Series :=
  match astype s (target col) with
  | Ok s' => s'
  | Raise _ => s
  end.

(** The columns after a pass over them in order, and how the pass ends:
    it goes on after a [ValueError] and stops at any other exception. *)
Fixpoint coerce_cols (cs : list (string * Series))
  : list (string * Series) * result unit :=
  match cs with
  | [] => ([], Ok ())
  | (n, s) :: cs' =>
      match astype s (target n) with
      | Ok s' => let '(r, e) := coerce_cols cs' in ((n, s') :: r, e)
      | Raise ValueError => let '(r, e) := coerce_cols cs' in ((n, s) :: r, e)
      | Raise e => ((n, s) :: cs', Raise e)
      end
  end.

(** Every conversion failure in the frame is a [ValueError]. *)
Definition only_ValueError (cs : list (string * Series)) : Prop :=
  ∀ n s e, (n, s) ∈ cs → astype s (target n) = Raise e → e = ValueError.

End Policy.

(** ** A small stats page *)

Module Sample.
Import DecimalCast.

(** [lines] joined by newlines, as the text of a page element. *)
Fixpoint join_lines (lines : list string) : string :=
  match lines with
  | [] => EmptyString
  | [l] => l
  | l :: ls => l +:+ String newline (join_lines ls)
  end.

(** Four header lines, then two teams. *)
Definition text : string :=
  join_lines ["TEAM"; "H"; "AVG"; "OBP";
              "1"; "Boston Red Sox"; "10 .250 .330";
              "2"; "New York Yankees"; "12 .275 .301"].

Definition lines : list string := slice_from (split newline text) 4.

(** The frame [clean_raw] makes of [text]. *)
Definition frame : DataFrame :=
  {| index := 2;
     cols :=
       [("TEAM", ObjectSeries [Some "Boston Red Sox"; Some "New York Yankees"]);
        ("H", ObjectSeries [Some "10"; Some "12"]);
        ("AVG", ObjectSeries [Some ".250"; Some ".275"]);
        ("OBP", ObjectSeries [Some ".330"; Some ".301"])] |}.

(** The same frame after [data_mung]. *)
Definition coerced : DataFrame :=
  {| index := 2;
     cols :=
       [("TEAM", ObjectSeries [Some "Boston Red Sox"; Some "New York Yankees"]);
        ("H", IntSeries [10; 12]);
        ("AVG", Float32Series [S754_finite false 8388608 (-25);
                               S754_finite false 9227469 (-25)]);
        ("OBP", Float32Series [S754_finite false 11072963 (-25);
                               S754_finite false 10099884 (-25)])] |}.

(** Lines in which a team name and a data line are themselves short. *)
Definition short_lines : list string := ["1"; "NY"; "3 4"; "x"; "y"].

End Sample.

(** ** Lines, fields and records *)

Module Layout.

(** The number of occurrences of [c] in [s]. *)
Fixpoint count_char (c : ascii) (s : string) : nat :=
  match s with
  | EmptyString => 0
  | String c' s' => (if Ascii.eqb c' c then 1 else 0) + count_char c s'
  end.

(** [sep.join(l)] for a one-character separator. *)
Fixpoint join (sep : ascii) (l : list string) : string :=
  match l with
  | [] => EmptyString
  | w :: ws =>
      match ws with
      | [] => w
      | _ => w +:+ String sep (join sep ws)
      end
  end.

(** The rows of the scan, read off the lines from the front: a line of at
    most 2 characters with two lines after it gives a row, and the scan
    goes on with the very next line. *)
Fixpoint window_rows (data : list string) : list (list string) :=
  match data with
  | line :: rest =>
      match rest with
      | team_name :: num_data :: _ =>
          if len_str line <=? 2
          then (team_name :: split space num_data) :: window_rows rest
          else window_rows rest
      | _ => []
      end
  | [] => []
  end.

(** The lines of a page body made of records: for each record its index,
    its team name and its line of figures. *)
Definition record_lines (records : list (string * string * string)) : list string :=
  records ≫= λ '(idx, team_name, num_data), [idx; team_name; num_data].

(** A record as the page shows it: an index of at most 2 characters, and a
    team name and a line of figures of more than 2 characters. *)
Definition well_formed (record : string * string * string) : Prop :=
  let '(idx, team_name, num_data) := record in
  len_str idx ≤ 2 ∧ 2 < len_str team_name ∧ 2 < len_str num_data.

(** The row of a record. *)
Definition record_row (record : string * string * string) : list string :=
  let '(_, team_name, num_data) := record in team_name :: split space num_data.

End Layout.

Import Layout.

(** ** Sample blocks of a team page *)

Module Pages.
Import DecimalCast.

Definition hit_headers : list string :=
  ["TEAM"; "LEAGUE"; "G"; "AB"; "R"; "H"; "2B"; "3B"; "HR"; "RBI";
   "BB"; "SO"; "SB"; "CS"; "AVG"; "OBP"; "SLG"; "OPS"].

Definition pitch_headers : list string :=
  ["TEAM"; "LEAGUE"; "W"; "L"; "ERA"; "G"; "GS"; "CG"; "SHO"; "SV"; "SVO";
   "IP"; "H"; "R"; "ER"; "HR"; "HB"; "BB"; "SO"; "WHIP"; "AVG"].

Definition hit_records : list (string * string * string) :=
  [("1", "Boston Red Sox",
    "AL 162 5600 850 1500 330 25 220 820 560 1390 70 25 .268 .335 .450 .785")].

Definition pitch_records : list (string * string * string) :=
  [("1", "Boston Red Sox",
    "AL 92 70 4.05 162 162 2 10 45 60 1440.1 1350 700 648 190 60 500 1450 1.28 .245")].

(** The text of the hitting block and of the pitching block. *)
Definition hit_text : string := join newline (hit_headers ++ record_lines hit_records).
Definition pitch_text : string := join newline (pitch_headers ++ record_lines pitch_records).

(** A pitching block whose only record has lost most of its figures. *)
Definition short_pitch_text : string :=
  join newline (pitch_headers ++ record_lines [("1", "Boston Red Sox", "AL 92 70")]).

(** A browser that delivers these blocks at any address. *)
Definition browse (address : string) : string * string := (hit_text, pitch_text).
Definition short_browse (address : string) : string * string :=
  (hit_text, short_pitch_text).

(** A frame with a missing value, as the constructor leaves it when a row
    is short. *)
Definition ragged : DataFrame :=
  {| index := 2;
     cols := [("H", ObjectSeries [Some "1"; Some "3"]);
              ("AB", ObjectSeries [Some "2"; None]);
              ("R", ObjectSeries [Some "5"; Some "6"])] |}.

(** A block with four header lines whose second record has lost all its
    figures but one, and the frame [clean_raw] makes of it: the short row
    is filled up with missing values. *)
Definition ragged_text : string :=
  join newline ["TEAM"; "H"; "AB"; "AVG";
                "1"; "Boston Red Sox"; "10 40 .250";
                "2"; "New York Yankees"; "12"].

Definition ragged_frame : DataFrame :=
  {| index := 2;
     cols :=
       [("TEAM", ObjectSeries [Some "Boston Red Sox"; Some "New York Yankees"]);
        ("H", ObjectSeries [Some "10"; Some "12"]);
        ("AB", ObjectSeries [Some "40"; None]);
        ("AVG", ObjectSeries [Some ".250"; None])] |}.

(** A block in which every figure is there, one of them an integer too
    long for 64 bits, and its frame. *)
Definition long_text : string :=
  join newline ["TEAM"; "H"; "AVG";
                "1"; "Boston Red Sox"; "99999999999999999999 .250"].

Definition long_frame : DataFrame :=
  {| index := 1;
     cols :=
       [("TEAM", ObjectSeries [Some "Boston Red Sox"]);
        ("H", ObjectSeries [Some "99999999999999999999"]);
        ("AVG", ObjectSeries [Some ".250"])] |}.

End Pages.

(** * The primitives on examples *)

Example split_fields : split space "10 .250 .330" = ["10"; ".250"; ".330"].
Proof. reflexivity. Qed.

Example split_empty : split space "" = [""].
Proof. reflexivity. Qed.

Example split_adjacent : split space "a  b " = ["a"; ""; "b"; ""].
Proof. reflexivity. Qed.

Example contains_red_sox : contains (lower "red sox") (lower "Boston Red Sox") = true.
Proof. reflexivity. Qed.

(** * Properties of the table parser *)

Section Parser.
Context `{NumpyCast}.

Lemma getitem_nat {A} (l : list A) (i : nat) :
  getitem l (Z.of_nat i) =
  match l !! i with Some x => Ok x | None => Raise IndexError end.
Proof.
  unfold getitem.
  destruct (Z.ltb_spec (Z.of_nat i) 0) as [Hneg|_]; [lia|].
  destruct (Z.ltb_spec (Z.of_nat i) 0) as [Hneg|_]; [lia|].
  by rewrite Nat2Z.id.
Qed.

Lemma getitem_lookup {A} `{Inhabited A} (l : list A) (i : nat) :
  (i < length l)%nat → getitem l (Z.of_nat i) = Ok (l !!! i).
Proof.
  intros Hi. rewrite getitem_nat.
  destruct (lookup_lt_is_Some_2 l i Hi) as [x Hx].
  rewrite Hx. by rewrite (list_lookup_total_correct _ _ _ Hx).
Qed.

Lemma fold_left_snoc {A} (l init : list A) :
  fold_left (λ acc x, acc ++ [x]) l init = init ++ l.
Proof.
  revert init. induction l as [|x l IH]; intros init; simpl.
  - by rewrite app_nil_r.
  - rewrite IH. by rewrite <- app_assoc.
Qed.

Lemma scan_body_in_range (data : list string) acc (i : nat) :
  (i + 2 < length data)%nat →
  scan_body data acc (Z.of_nat i) =
  Ok (acc ++ if short_line data i then [row_at data i] else []).
Proof.
  intros Hi. unfold scan_body, short_line.
  rewrite getitem_nat.
  destruct (lookup_lt_is_Some_2 data i ltac:(lia)) as [line Hline].
  rewrite Hline. simpl.
  destruct (len_str line <=? 2).
  - replace (Z.of_nat i + 1) with (Z.of_nat (i + 1)) by lia.
    replace (Z.of_nat i + 2) with (Z.of_nat (i + 2)) by lia.
    rewrite !getitem_lookup by lia. simpl.
    by rewrite fold_left_snoc.
  - by rewrite app_nil_r.
Qed.

Lemma for_each_scan (data : list string) (a n : nat) acc :
  (n = 0 ∨ a + n + 2 ≤ length data)%nat →
  for_each (scan_body data) (Z.of_nat <$> seq a n) acc =
  Ok (acc ++ (row_at data <$> List.filter (short_line data) (seq a n))).
Proof.
  revert a acc. induction n as [|n IH]; intros a acc Hn; simpl.
  - by rewrite app_nil_r.
  - rewrite scan_body_in_range by lia. simpl.
    rewrite IH by lia.
    destruct (short_line data a); simpl.
    + by rewrite <- app_assoc.
    + by rewrite app_nil_r.
Qed.

Lemma scan_indices_seq (data : list string) :
  scan_indices data = Z.of_nat <$> seq 0 (length data - 2).
Proof.
  unfold scan_indices, range, len. do 2 f_equal. lia.
Qed.

Lemma scan_rows (data : list string) :
  scan data = Ok (row_at data <$> marker_indices data).
Proof.
  unfold scan. rewrite scan_indices_seq.
  rewrite for_each_scan by lia. done.
Qed.

Lemma elem_of_marker_indices (data : list string) (i : nat) :
  i ∈ marker_indices data ↔
  (i + 2 < length data)%nat ∧ ∃ line, data !! i = Some line ∧ len_str line ≤ 2.
Proof.
  unfold marker_indices.
  rewrite list_elem_of_In, filter_In, <- list_elem_of_In, elem_of_seq.
  unfold short_line. split.
  - intros [Hi Hs]. split; [lia|].
    destruct (data !! i) as [line|]; [|done].
    exists line. split; [done|]. by apply Z.leb_le.
  - intros [Hi (line & Hl & Hs)]. split; [lia|].
    rewrite Hl. by apply Z.leb_le.
Qed.

Lemma marker_index_lines (data : list string) (k i : nat) :
  marker_indices data !! k = Some i →
  ∃ line team_name num_data,
    data !! i = Some line ∧ len_str line ≤ 2 ∧
    data !! (i + 1)%nat = Some team_name ∧
    data !! (i + 2)%nat = Some num_data ∧
    row_at data i = team_name :: split space num_data.
Proof.
  intros Hk.
  apply list_elem_of_lookup_2, elem_of_marker_indices in Hk
    as [Hi (line & Hline & Hshort)].
  destruct (lookup_lt_is_Some_2 data (i + 1) ltac:(lia)) as [t Ht].
  destruct (lookup_lt_is_Some_2 data (i + 2) ltac:(lia)) as [d Hd].
  exists line, t, d. repeat split; try done.
  unfold row_at.
  by rewrite (list_lookup_total_correct _ _ _ Ht),
    (list_lookup_total_correct _ _ _ Hd).
Qed.

(** *** The frame constructor *)

Lemma make_DataFrame_shape rows headers df :
  make_DataFrame rows headers = Ok df →
  columns df = headers ∧ index df = length rows ∧
  Forall (λ c, series_len c.2 = index df) (cols df).
Proof.
  unfold make_DataFrame, columns.
  destruct rows as [|r rows].
  - intros [= <-]. simpl. split; [|split; [done|]].
    + rewrite <- list_fmap_compose. apply list_fmap_id.
    + apply Forall_fmap, Forall_true. done.
  - case_decide; [|done]. intros [= <-]. simpl. split; [|split; [done|]].
    + rewrite fmap_imap.
      rewrite (imap_ext _ (const id)) by done.
      rewrite imap_const. apply list_fmap_id.
    + apply Forall_forall. intros [n c] Hin.
      apply elem_of_lookup_imap_1 in Hin as (j & h & [= -> ->] & _).
      simpl. by rewrite length_fmap.
Qed.

Lemma make_DataFrame_total rows headers :
  Forall (λ r, length r = length headers) rows →
  ∃ df, make_DataFrame rows headers = Ok df.
Proof.
  intros Hw. unfold make_DataFrame.
  destruct rows as [|r rows]; [by eexists|].
  rewrite decide_True; [by eexists|].
  unfold row_width.
  assert (Hall : Forall (λ n, n = length headers) (length <$> r :: rows))
    by by apply Forall_fmap.
  assert (Hmax : max_list (length <$> r :: rows) ∈ length <$> r :: rows)
    by by apply max_list_elem_of.
  by apply (proj1 (Forall_forall _ _) Hall).
Qed.

Lemma make_DataFrame_first_column rows headers df (k : nat) r x :
  make_DataFrame rows headers = Ok df →
  rows !! k = Some r → r !! 0%nat = Some x →
  ∃ name vs, cols df !! 0%nat = Some (name, ObjectSeries vs) ∧
             vs !! k = Some (Some x).
Proof.
  unfold make_DataFrame. intros Hdf Hk Hx.
  destruct rows as [|r0 rows]; [done|].
  case_decide as Hw; [|done]. injection Hdf as <-. simpl.
  assert (Hlen : (length r ≤ length headers)%nat).
  { rewrite <- Hw. apply max_list_elem_of_le.
    apply list_elem_of_fmap. exists r. split; [done|].
    by apply list_elem_of_lookup_2 in Hk. }
  destruct headers as [|name headers].
  { apply lookup_lt_Some in Hx. simpl in Hlen. lia. }
  exists name, ((λ r, r !! 0%nat) <$> r0 :: rows). split; [done|].
  by rewrite list_lookup_fmap, Hk; simpl; rewrite Hx.
Qed.

(** *** Positions in the list of markers *)

Lemma filter_seq_lookup_ge (f : nat → bool) (a n k i : nat) :
  List.filter f (seq a n) !! k = Some i → (a ≤ i)%nat.
Proof.
  intros Hk. apply list_elem_of_lookup_2 in Hk.
  rewrite list_elem_of_In, filter_In, <- list_elem_of_In, elem_of_seq in Hk.
  lia.
Qed.

Lemma filter_seq_lookup_lt (f : nat → bool) (a n k k' i j : nat) :
  List.filter f (seq a n) !! k = Some i →
  List.filter f (seq a n) !! k' = Some j →
  (k < k')%nat → (i < j)%nat.
Proof.
  revert a k k'. induction n as [|n IH]; intros a k k' Hk Hk' Hlt; [done|].
  simpl in Hk, Hk'. destruct (f a).
  - destruct k' as [|k']; [lia|]. simpl in Hk'.
    destruct k as [|k]; simpl in Hk.
    + injection Hk as <-. apply filter_seq_lookup_ge in Hk'. lia.
    + apply (IH (S a) k k'); [done..|lia].
  - by apply (IH (S a) k k').
Qed.

Lemma marker_positions_ordered (data : list string) (i j : nat) :
  i ∈ marker_indices data → j ∈ marker_indices data → (i < j)%nat →
  ∃ k k', (k < k')%nat ∧
    marker_indices data !! k = Some i ∧ marker_indices data !! k' = Some j.
Proof.
  intros [k Hk]%list_elem_of_lookup_1 [k' Hk']%list_elem_of_lookup_1 Hlt.
  exists k, k'. split; [|done].
  destruct (Nat.lt_trichotomy k k') as [?|[->|Hgt]]; [done|..].
  - rewrite Hk in Hk'. injection Hk' as ->. lia.
  - pose proof (filter_seq_lookup_lt _ _ _ _ _ _ _ Hk' Hk Hgt). lia.
Qed.

Lemma scan_row_lookup (data : list string) (k i : nat) :
  marker_indices data !! k = Some i →
  (row_at data <$> marker_indices data) !! k = Some (row_at data i).
Proof. intros Hk. by rewrite list_lookup_fmap, Hk. Qed.

(** *** The claims on the parser *)

(** C1.  The scan yields one row per marker, in the order of the markers:
    for the [k]-th line of at most 2 characters that the scan reaches, at
    position [i], the [k]-th row is the line at [i+1] followed by the
    pieces of the line at [i+2] split at single spaces; and in every
    frame [clean_raw] returns, the [k]-th value of the first column is
    that line at [i+1]. *)
Theorem clean_raw_row_of_marker (text : string) (head_ind_start : Z) :
  let data := slice_from (split newline text) head_ind_start in
  ∃ rows,
    scan data = Ok rows ∧
    length rows = length (marker_indices data) ∧
    (∀ i, i ∈ marker_indices data ↔
          (i + 2 < length data)%nat ∧
          ∃ line, data !! i = Some line ∧ len_str line ≤ 2) ∧
    ∀ k i, marker_indices data !! k = Some i →
      ∃ team_name num_data,
        data !! (i + 1)%nat = Some team_name ∧
        data !! (i + 2)%nat = Some num_data ∧
        rows !! k = Some (team_name :: split space num_data) ∧
        ∀ df, clean_raw text head_ind_start = Ok df →
          ∃ name vs, cols df !! 0%nat = Some (name, ObjectSeries vs) ∧
                     vs !! k = Some (Some team_name).
Proof.
  intros data. exists (row_at data <$> marker_indices data).
  split; [apply scan_rows|]. split; [by rewrite length_fmap|].
  split; [apply elem_of_marker_indices|].
  intros k i Hk.
  destruct (marker_index_lines _ _ _ Hk) as (line & t & d & _ & _ & Ht & Hd & Hrow).
  exists t, d. repeat split; try done.
  - rewrite <- Hrow. by apply scan_row_lookup.
  - intros df Hdf. unfold clean_raw in Hdf. fold data in Hdf.
    rewrite scan_rows in Hdf. simpl in Hdf.
    eapply make_DataFrame_first_column; [exact Hdf| |].
    + by apply scan_row_lookup.
    + by rewrite Hrow.
Qed.

Lemma marker_indices_last_two (pre : list string) (a b : string) :
  marker_indices (pre ++ [a; b]) =
  List.filter (short_line pre) (seq 0 (length pre)).
Proof.
  unfold marker_indices. rewrite length_app. simpl.
  replace (length pre + 2 - 2)%nat with (length pre) by lia.
  apply filter_ext_in. intros i Hi.
  apply list_elem_of_In, elem_of_seq in Hi.
  unfold short_line. by rewrite lookup_app_l by lia.
Qed.

(** C2.  The scan tests exactly the positions [0 .. len(data)-3] of the
    data lines.  The loop runs over these positions; no read is out of
    range, so the scan always returns; with fewer than two lines it finds
    nothing; and with [a] and [b] the last two lines, the result is one row
    for each line before them that has at most 2 characters, in order, and
    nothing else: every line before [a] is tested, [a] and [b] never are,
    whatever they contain. *)
Theorem scan_stops_two_lines_early (data : list string) :
  (∀ row, row ∈ scan_indices data ↔ 0 ≤ row ≤ len data - 3) ∧
  (∃ rows, scan data = Ok rows) ∧
  ((length data < 2)%nat → scan data = Ok []) ∧
  (∀ pre a b, data = pre ++ [a; b] →
     scan data =
     Ok ((λ i : nat, data !!! (i + 1)%nat :: split space (data !!! (i + 2)%nat)) <$>
         List.filter (short_line pre) (seq 0 (length pre)))) ∧
  ∀ pre a b a' b', data = pre ++ [a; b] →
    ∃ rows rows',
      scan data = Ok rows ∧ scan (pre ++ [a'; b']) = Ok rows' ∧
      length rows = length rows'.
Proof.
  split; [|split; [|split; [|split]]].
  - intros row. rewrite scan_indices_seq, list_elem_of_fmap. unfold len.
    split.
    + intros (i & -> & Hi). apply elem_of_seq in Hi. lia.
    + intros Hrow. exists (Z.to_nat row). split; [lia|].
      apply elem_of_seq. lia.
  - eexists. apply scan_rows.
  - intros Hlen. rewrite scan_rows. unfold marker_indices.
    by replace (length data - 2)%nat with 0%nat by lia.
  - intros pre a b ->. rewrite scan_rows.
    by rewrite marker_indices_last_two.
  - intros pre a b a' b' ->. do 2 eexists.
    split; [apply scan_rows|]. split; [apply scan_rows|].
    by rewrite !length_fmap, !marker_indices_last_two.
Qed.

(** C3.  When every recognised row has as many values as there are header
    lines, [clean_raw] returns a frame whose column names are the header
    lines, in order (the first [head_ind_start] lines when the text has
    that many), with one row per recognised marker, and every column has
    one value per row. *)
Theorem clean_raw_shape (text : string) (head_ind_start : Z) :
  let raw_data := split newline text in
  let headers := slice_to raw_data head_ind_start in
  let data := slice_from raw_data head_ind_start in
  Forall (λ i, length (row_at data i) = length headers) (marker_indices data) →
  ∃ df,
    clean_raw text head_ind_start = Ok df ∧
    columns df = headers ∧
    length (cols df) = length headers ∧
    (0 ≤ head_ind_start ≤ len raw_data →
       headers = take (Z.to_nat head_ind_start) raw_data ∧
       len (cols df) = head_ind_start) ∧
    index df = length (marker_indices data) ∧
    Forall (λ c, series_len c.2 = index df) (cols df).
Proof.
  intros raw_data headers data Hvalid.
  destruct (make_DataFrame_total (row_at data <$> marker_indices data) headers)
    as [df Hdf]; [by apply Forall_fmap|].
  exists df.
  destruct (make_DataFrame_shape _ _ _ Hdf) as (Hcols & Hidx & Hlen).
  assert (Hn : length (cols df) = length headers).
  { rewrite <- Hcols. unfold columns. by rewrite length_fmap. }
  split; [|split; [done|split; [done|split; [|split]]]].
  - unfold clean_raw. fold raw_data. fold data. fold headers.
    by rewrite scan_rows.
  - intros Hh.
    assert (Hb : slice_bound (length raw_data) head_ind_start = Z.to_nat head_ind_start).
    { unfold slice_bound, len in *.
      destruct (Z.ltb_spec head_ind_start 0); lia. }
    split.
    + unfold headers, slice_to. by rewrite Hb.
    + unfold len. rewrite Hn. unfold headers, slice_to.
      rewrite Hb, length_take. unfold len in Hh. lia.
  - by rewrite Hidx, length_fmap.
  - done.
Qed.

(** C9.  The scan does not skip the lines a recognised row has used.
    When the line at [i] is a marker, its team-name line at [i+1] and its
    data line at [i+2] are tested in their turn: if one of them has at
    most 2 characters (and two lines follow it) it yields a further row,
    later in the result, built from lines the first row already used or
    from the lines after them. *)
Theorem scan_rows_overlap (data : list string) (i : nat)
    (line team_name num_data next : string) :
  data !! i = Some line → len_str line ≤ 2 →
  data !! (i + 1)%nat = Some team_name →
  data !! (i + 2)%nat = Some num_data →
  data !! (i + 3)%nat = Some next →
  ∃ rows k,
    scan data = Ok rows ∧
    rows !! k = Some (team_name :: split space num_data) ∧
    (len_str team_name ≤ 2 →
       ∃ k', (k < k')%nat ∧ rows !! k' = Some (num_data :: split space next)) ∧
    (∀ after, len_str num_data ≤ 2 → data !! (i + 4)%nat = Some after →
       ∃ k', (k < k')%nat ∧ rows !! k' = Some (next :: split space after)).
Proof.
  intros Hline Hshort Ht Hd Hnext.
  pose proof (lookup_lt_Some _ _ _ Hnext) as Hlen.
  assert (Hi : i ∈ marker_indices data).
  { apply elem_of_marker_indices. split; [lia|]. by exists line. }
  assert (Hrow : ∀ j x y, data !! (j + 1)%nat = Some x →
            data !! (j + 2)%nat = Some y → row_at data j = x :: split space y).
  { intros j x y Hx Hy. unfold row_at.
    by rewrite (list_lookup_total_correct _ _ _ Hx),
      (list_lookup_total_correct _ _ _ Hy). }
  assert (Hlater : ∀ j, j ∈ marker_indices data → (i < j)%nat →
            ∀ k, marker_indices data !! k = Some i →
            ∃ k', (k < k')%nat ∧
              (row_at data <$> marker_indices data) !! k' = Some (row_at data j)).
  { intros j Hj Hij k Hk.
    destruct (marker_positions_ordered _ _ _ Hi Hj Hij) as (k0 & k' & Hlt & Hk0 & Hk').
    assert (k0 = k) as ->.
    { destruct (Nat.lt_trichotomy k0 k) as [Hc|[?|Hc]]; [|done|].
      - pose proof (filter_seq_lookup_lt _ _ _ _ _ _ _ Hk0 Hk Hc). lia.
      - pose proof (filter_seq_lookup_lt _ _ _ _ _ _ _ Hk Hk0 Hc). lia. }
    exists k'. split; [done|]. by apply scan_row_lookup. }
  destruct (list_elem_of_lookup_1 _ _ Hi) as [k Hk].
  exists (row_at data <$> marker_indices data), k.
  split; [apply scan_rows|]. split; [|split].
  - rewrite <- (Hrow i _ _ Ht Hd). by apply scan_row_lookup.
  - intros Hteam.
    rewrite <- (Hrow (i + 1)%nat num_data next).
    + apply Hlater; [|lia|done].
      apply elem_of_marker_indices. split; [lia|]. by exists team_name.
    + by replace (i + 1 + 1)%nat with (i + 2)%nat by lia.
    + by replace (i + 1 + 2)%nat with (i + 3)%nat by lia.
  - intros after Hnum Hafter.
    pose proof (lookup_lt_Some _ _ _ Hafter).
    rewrite <- (Hrow (i + 2)%nat next after).
    + apply Hlater; [|lia|done].
      apply elem_of_marker_indices. split; [lia|]. by exists num_data.
    + by replace (i + 2 + 1)%nat with (i + 3)%nat by lia.
    + by replace (i + 2 + 2)%nat with (i + 4)%nat by lia.
Qed.

End Parser.

(** * Properties of the type coercion *)

Section Coercion.
Context `{NumpyCast}.

(** *** [astype] *)

Lemma cast_all_length {A B} (f : A → result B) vs bs :
  cast_all f vs = Ok bs → length bs = length vs.
Proof.
  revert bs. induction vs as [|v vs IH]; intros bs; simpl.
  - by intros [= <-].
  - destruct (f v) as [b|]; [|done]. simpl.
    destruct (cast_all f vs) as [bs'|]; [|done]. simpl.
    intros [= <-]. simpl. by rewrite (IH bs').
Qed.

Lemma astype_length s d s' :
  astype s d = Ok s' → series_len s' = series_len s.
Proof.
  destruct d, s as [vs|vs|vs]; simpl;
    try (intros [= <-]; simpl; by rewrite ?length_fmap);
    (match goal with |- context [cast_all ?f vs] =>
       destruct (cast_all f vs) as [bs|] eqn:Hc; [|done] end);
    simpl; intros [= <-]; simpl; by apply cast_all_length in Hc.
Qed.

Lemma astype_int_dtype s s' :
  astype s int_dtype = Ok s' → ∃ vs, s' = IntSeries vs.
Proof.
  destruct s as [vs|vs|vs]; simpl;
    try (intros [= <-]; by eexists);
    (match goal with |- context [cast_all ?f vs] =>
       destruct (cast_all f vs) as [bs|]; [|done] end);
    simpl; intros [= <-]; by eexists.
Qed.

Lemma astype_float32_dtype s s' :
  astype s float32_dtype = Ok s' → ∃ vs, s' = Float32Series vs.
Proof.
  destruct s as [vs|vs|vs]; simpl;
    try (intros [= <-]; by eexists);
    (match goal with |- context [cast_all ?f vs] =>
       destruct (cast_all f vs) as [bs|]; [|done] end);
    simpl; intros [= <-]; by eexists.
Qed.

(** Converting again to the dtype a series was converted to returns it
    as it is. *)
Lemma astype_idempotent s d s' :
  astype s d = Ok s' → astype s' d = Ok s'.
Proof.
  destruct d; intros Hs.
  - by destruct (astype_int_dtype _ _ Hs) as [vs ->].
  - by destruct (astype_float32_dtype _ _ Hs) as [vs ->].
Qed.

(** *** The float-column set *)

Lemma In_list_elem_of x l : In_list x l = true ↔ x ∈ l.
Proof.
  unfold In_list. rewrite existsb_exists. split.
  - intros (y & Hy & ->%String.eqb_eq). by apply list_elem_of_In.
  - intros Hx. exists x. split; [by apply list_elem_of_In|apply String.eqb_refl].
Qed.

Lemma float_cols_names col :
  In_list col float_cols = bool_decide (col ∈ float_names).
Proof.
  apply eq_true_iff_eq. rewrite In_list_elem_of.
  rewrite <- Is_true_true, bool_decide_spec.
  unfold float_cols, float_names.
  rewrite !elem_of_cons, !elem_of_nil. tauto.
Qed.

Lemma target_float col :
  col ∈ float_names → target col = float32_dtype.
Proof.
  intros Hc. unfold target. by rewrite float_cols_names, bool_decide_true.
Qed.

Lemma target_int col :
  col ∉ float_names → target col = int_dtype.
Proof.
  intros Hc. unfold target. by rewrite float_cols_names, bool_decide_false.
Qed.

(** *** One pass of the [try] block *)

Lemma mung_try_target df col :
  mung_try df col =
  (s ← getcol df col; s' ← astype s (target col); Ok (setcol df col s')).
Proof.
  unfold mung_try, target. by destruct (In_list col float_cols).
Qed.

Lemma lookup_col_app cs1 n s cs2 :
  n ∉ cs1.*1 → lookup_col n (cs1 ++ (n, s) :: cs2) = Ok s.
Proof.
  induction cs1 as [|[n1 s1] cs1 IH]; simpl; intros Hn.
  - by rewrite String.eqb_refl.
  - apply not_elem_of_cons in Hn as [Hne Hn].
    destruct (String.eqb_spec n1 n) as [->|_]; [done|]. by apply IH.
Qed.

Lemma assign_col_app cs1 n s s' cs2 :
  n ∉ cs1.*1 →
  assign_col n s' (cs1 ++ (n, s) :: cs2) = cs1 ++ (n, s') :: cs2.
Proof.
  induction cs1 as [|[n1 s1] cs1 IH]; simpl; intros Hn.
  - by rewrite String.eqb_refl.
  - apply not_elem_of_cons in Hn as [Hne Hn].
    destruct (String.eqb_spec n1 n) as [->|_]; [done|]. by rewrite IH.
Qed.

(** *** The loop, for unique column names *)

Lemma mung_loop_coerce_cols (ix : nat) cs1 cs2 :
  NoDup (cs1 ++ cs2).*1 →
  mung_loop cs2.*1 {| index := ix; cols := cs1 ++ cs2 |} =
  ({| index := ix; cols := cs1 ++ (coerce_cols cs2).1 |}, (coerce_cols cs2).2).
Proof.
  revert cs1. induction cs2 as [|[n s] cs2 IH]; intros cs1 Hnd; [done|].
  assert (Hn : n ∉ cs1.*1).
  { rewrite fmap_app in Hnd. apply NoDup_app in Hnd as (_ & Hd & _).
    intros Hin. apply (Hd _ Hin). simpl. left. }
  simpl. rewrite mung_try_target. unfold getcol, setcol. simpl.
  rewrite lookup_col_app by done. simpl.
  destruct (astype s (target n)) as [s'|e] eqn:Hs; simpl.
  - rewrite assign_col_app by done.
    specialize (IH (cs1 ++ [(n, s')])).
    rewrite <- !app_assoc in IH. simpl in IH.
    change (list_fmap _ _ fst cs2) with (cs2.*1). rewrite IH.
    + by destruct (coerce_cols cs2) as [r e'].
    + by rewrite !fmap_app, !fmap_cons in *.
  - destruct e;
      try (by destruct (coerce_cols cs2)).
    specialize (IH (cs1 ++ [(n, s)])).
    rewrite <- !app_assoc in IH. simpl in IH.
    change (list_fmap _ _ fst cs2) with (cs2.*1). rewrite IH.
    + by destruct (coerce_cols cs2) as [r e'].
    + by rewrite !fmap_app, !fmap_cons in *.
Qed.

Lemma data_mung_coerce_cols df :
  NoDup (columns df) →
  data_mung df =
  ({| index := index df; cols := (coerce_cols (cols df)).1 |},
   (coerce_cols (cols df)).2).
Proof.
  intros Hnd. unfold data_mung, columns. destruct df as [ix cs]. simpl.
  by apply (mung_loop_coerce_cols ix []).
Qed.

(** *** The pass over the columns *)

Lemma coerce_cols_names cs : (coerce_cols cs).1.*1 = cs.*1.
Proof.
  induction cs as [|[n s] cs IH]; [done|]. simpl.
  destruct (astype s (target n)) as [s'|[]]; try done;
    destruct (coerce_cols cs) as [r e]; simpl in *; f_equal; exact IH.
Qed.

Lemma coerce_cols_idempotent cs :
  coerce_cols (coerce_cols cs).1 = coerce_cols cs.
Proof.
  induction cs as [|[n s] cs IH]; [done|]. simpl.
  destruct (astype s (target n)) as [s'|e] eqn:Hs.
  - destruct (coerce_cols cs) as [r e'] eqn:Hr. simpl in *.
    by rewrite (astype_idempotent _ _ _ Hs), IH.
  - destruct e; simpl; rewrite ?Hs; try done.
    destruct (coerce_cols cs) as [r e'] eqn:Hr. simpl in *.
    by rewrite Hs, IH.
Qed.

Lemma coerce_cols_not_ValueError cs : (coerce_cols cs).2 ≠ Raise ValueError.
Proof.
  induction cs as [|[n s] cs IH]; [done|]. simpl.
  destruct (astype s (target n)) as [s'|[]]; try done;
    by destruct (coerce_cols cs) as [r e].
Qed.

Lemma only_ValueError_cons c cs :
  only_ValueError (c :: cs) → only_ValueError cs.
Proof. intros Hc n s e Hin. apply Hc. by right. Qed.

Lemma coerce_cols_returns cs :
  only_ValueError cs → (coerce_cols cs).2 = Ok ().
Proof.
  induction cs as [|[n s] cs IH]; [done|]. intros Hc. simpl.
  specialize (IH (only_ValueError_cons _ _ Hc)).
  destruct (astype s (target n)) as [s'|e] eqn:Hs.
  - by destruct (coerce_cols cs).
  - rewrite (Hc n s e) by (done || left). by destruct (coerce_cols cs).
Qed.

Lemma coerce_cols_lookup_unchanged cs (j : nat) n s e :
  cs !! j = Some (n, s) → astype s (target n) = Raise e →
  (coerce_cols cs).1 !! j = Some (n, s).
Proof.
  revert j. induction cs as [|[n0 s0] cs IH]; intros j Hj Hs; [done|].
  simpl. destruct j as [|j]; simpl in Hj.
  - injection Hj as -> ->. rewrite Hs.
    destruct e; try done; by destruct (coerce_cols cs).
  - specialize (IH j Hj Hs).
    destruct (astype s0 (target n0)) as [s'|[]]; try done;
      by destruct (coerce_cols cs).
Qed.

Lemma coerce_cols_lookup cs (j : nat) n s :
  cs !! j = Some (n, s) →
  (∀ (i : nat) n' s' e, (i < j)%nat → cs !! i = Some (n', s') →
     astype s' (target n') = Raise e → e = ValueError) →
  (coerce_cols cs).1 !! j = Some (n, coerce n s).
Proof.
  revert j. induction cs as [|[n0 s0] cs IH]; intros j Hj Hbefore; [done|].
  simpl. destruct j as [|j]; simpl in Hj.
  - injection Hj as -> ->. unfold coerce.
    destruct (astype s (target n)) as [s'|[]]; try done;
      by destruct (coerce_cols cs).
  - assert (IH' : (coerce_cols cs).1 !! j = Some (n, coerce n s)).
    { apply IH; [done|]. intros i n' s' e Hi Hl.
      apply (Hbefore (S i)); [lia|done]. }
    destruct (astype s0 (target n0)) as [s'|e] eqn:Hs0.
    + by destruct (coerce_cols cs).
    + rewrite (Hbefore 0%nat n0 s0 e) by (done || lia).
      by destruct (coerce_cols cs).
Qed.

(** *** What the loop never changes *)

Lemma assign_col_names col s s' cs :
  lookup_col col cs = Ok s → (assign_col col s' cs).*1 = cs.*1.
Proof.
  induction cs as [|[n0 s0] cs IH]; simpl; [done|].
  destruct (String.eqb n0 col); [done|].
  intros Hl. simpl. f_equal. by apply IH.
Qed.

Lemma assign_col_lengths col s s' cs :
  lookup_col col cs = Ok s → series_len s' = series_len s →
  (series_len ∘ snd) <$> assign_col col s' cs = (series_len ∘ snd) <$> cs.
Proof.
  induction cs as [|[n0 s0] cs IH]; simpl; [done|].
  destruct (String.eqb n0 col).
  - intros [= ->] Hlen. simpl. by rewrite Hlen.
  - intros Hl Hlen. simpl. f_equal. by apply IH.
Qed.

Lemma mung_try_frame df col df' :
  mung_try df col = Ok df' →
  columns df' = columns df ∧ index df' = index df ∧
  (series_len ∘ snd) <$> cols df' = (series_len ∘ snd) <$> cols df.
Proof.
  rewrite mung_try_target. unfold getcol, setcol, columns.
  destruct (lookup_col col (cols df)) as [s|] eqn:Hl; [|done]. simpl.
  destruct (astype s (target col)) as [s'|] eqn:Hs; [|done]. simpl.
  intros [= <-]. simpl. split; [|split; [done|]].
  - by apply assign_col_names with s.
  - apply assign_col_lengths with s; [done|]. by apply astype_length in Hs.
Qed.

Lemma mung_loop_frame names df :
  columns (mung_loop names df).1 = columns df ∧
  index (mung_loop names df).1 = index df ∧
  (series_len ∘ snd) <$> cols (mung_loop names df).1 =
    (series_len ∘ snd) <$> cols df.
Proof.
  revert df. induction names as [|col names IH]; intros df; [done|].
  simpl. destruct (mung_try df col) as [df'|e] eqn:Htry.
  - destruct (mung_try_frame _ _ _ Htry) as (Hc & Hi & Hl).
    destruct (IH df') as (Hc' & Hi' & Hl').
    by rewrite Hc', Hi', Hl', Hc, Hi, Hl.
  - destruct e; try done; apply IH.
Qed.


(** *** The claims on the coercion *)

(** C4, amended.  On a stat table whose conversions fail, when they fail, with the
    [ValueError] of a value that does not convert, [data_mung] returns
    normally and has treated every column by its name.  The names that count
    are the seven of [float_names]; the repeated ["AVG"] of [float_cols]
    adds nothing.  A column with such a name holds [float32] values when
    [astype('float32')] returns, any other column holds integers when
    [astype('int')] returns, and a column whose conversion fails is the
    column it was. *)
Theorem data_mung_policy (df : DataFrame) :
  StatTable df → only_ValueError (cols df) →
  ∃ df',
    data_mung df = (df', Ok ()) ∧
    (∀ col, In_list col float_cols = true ↔ col ∈ float_names) ∧
    ∀ (j : nat) col s, cols df !! j = Some (col, s) →
      ∃ s', cols df' !! j = Some (col, s') ∧
        if bool_decide (col ∈ float_names) then
          match astype s float32_dtype with
          | Ok r => s' = r ∧ ∃ vs, s' = Float32Series vs
          | Raise _ => s' = s
          end
        else
          match astype s int_dtype with
          | Ok r => s' = r ∧ ∃ vs, s' = IntSeries vs
          | Raise _ => s' = s
          end.
Proof.
  intros [Hnd _] Hve. eexists. split; [|split].
  - rewrite (data_mung_coerce_cols _ Hnd).
    by rewrite (coerce_cols_returns _ Hve).
  - intros col. rewrite float_cols_names.
    by rewrite <- Is_true_true, bool_decide_spec.
  - intros j col s Hj. cbn [cols fst]. exists (coerce col s). split.
    + apply coerce_cols_lookup; [done|].
      intros i n' s0 e _ Hi. apply Hve. by apply list_elem_of_lookup_2 in Hi.
    + unfold coerce. case_bool_decide as Hin.
      * rewrite (target_float _ Hin).
        destruct (astype s float32_dtype) as [r|] eqn:Hs; simpl; [|done].
        split; [done|]. by apply astype_float32_dtype in Hs.
      * rewrite (target_int _ Hin).
        destruct (astype s int_dtype) as [r|] eqn:Hs; simpl; [|done].
        split; [done|]. by apply astype_int_dtype in Hs.
Qed.

(** C5.  [data_mung] is idempotent: run on the frame a first call has left,
    it leaves the same frame and ends the same way. *)
Theorem data_mung_idempotent (df : DataFrame) :
  StatTable df → data_mung (data_mung df).1 = data_mung df.
Proof.
  intros [Hnd _].
  rewrite (data_mung_coerce_cols df Hnd). simpl.
  rewrite data_mung_coerce_cols; simpl.
  - by rewrite coerce_cols_idempotent.
  - unfold columns. simpl. by rewrite coerce_cols_names.
Qed.

(** C6, amended.  A column whose conversion raises [ValueError] is, after
    [data_mung], the column it was, value for value; the call does not end
    with [ValueError]; every later column is treated as usual, provided no
    column up to it raises an exception of another class; and when no
    column raises another class the call returns normally. *)
Theorem data_mung_swallows_ValueError (df : DataFrame) (j : nat) col s :
  StatTable df →
  cols df !! j = Some (col, s) →
  astype s (target col) = Raise ValueError →
  cols (data_mung df).1 !! j = Some (col, s) ∧
  (data_mung df).2 ≠ Raise ValueError ∧
  (∀ (j' : nat) col' s', (j < j')%nat → cols df !! j' = Some (col', s') →
     (∀ (i : nat) n r e, (i < j')%nat → cols df !! i = Some (n, r) →
        astype r (target n) = Raise e → e = ValueError) →
     cols (data_mung df).1 !! j' = Some (col', coerce col' s')) ∧
  (only_ValueError (cols df) → (data_mung df).2 = Ok ()).
Proof.
  intros [Hnd _] Hj Hs. rewrite (data_mung_coerce_cols _ Hnd). simpl.
  split; [|split; [|split]].
  - by apply coerce_cols_lookup_unchanged with ValueError.
  - apply coerce_cols_not_ValueError.
  - intros j' col' s' _ Hj' Hbefore. by apply coerce_cols_lookup.
  - apply coerce_cols_returns.
Qed.


End Coercion.

(** * Properties of the team lookup *)

Section Lookup.
Context `{NumpyCast}.

Lemma filter_first_match {A} (f : A → bool) (l : list A) :
  (∃ x, x ∈ l ∧ f x = true) →
  ∃ before x after,
    l = before ++ x :: after ∧
    Forall (λ y, f y = false) before ∧ f x = true ∧
    List.filter f l = x :: List.filter f after.
Proof.
  induction l as [|y l IH]; intros (x & Hin & Hx).
  - by apply elem_of_nil in Hin.
  - destruct (f y) eqn:Hy.
    + exists [], y, l. simpl. by rewrite Hy.
    + apply elem_of_cons in Hin as [->|Hin]; [congruence|].
      destruct IH as (before & z & after & -> & Hb & Hz & Hf); [by exists x|].
      exists (y :: before), z, after. simpl. rewrite Hy.
      split; [done|]. split; [by constructor|]. done.
Qed.

Lemma filter_no_match {A} (f : A → bool) (l : list A) :
  Forall (λ y, f y = false) l → List.filter f l = [].
Proof.
  induction 1 as [|y l Hy _ IH]; [done|]. simpl. by rewrite Hy.
Qed.

(** C7.  When some entry of [teams] matches, [change_url] takes the slug of
    the first entry whose lower-cased name contains the lower-cased input,
    and stores [https://www.mlb.com/<slug>/stats/team/] as the URL, leaving
    the rest of the instance alone; ["red sox"] gives the slug ["redsox"]. *)
Theorem change_url_first_match (self : TeamStats) (team_name : string) :
  (∃ n, n ∈ teams ∧ contains (lower team_name) (lower n.1) = true) →
  (∃ before name slug after,
     teams = before ++ (name, slug) :: after ∧
     Forall (λ n, contains (lower team_name) (lower n.1) = false) before ∧
     contains (lower team_name) (lower name) = true ∧
     getitem (matching_slugs team_name) 0 = Ok slug ∧
     change_url self team_name =
       ({| headless := headless self;
           url := "https://www.mlb.com/" +:+ slug +:+ "/stats/team/";
           hit_stats := hit_stats self;
           pitch_stats := pitch_stats self |}, Ok ())) ∧
  getitem (matching_slugs "red sox") 0 = Ok "redsox".
Proof.
  intros Hex. split; [|done].
  destruct (filter_first_match (team_matches team_name) teams Hex)
    as (before & [name slug] & after & Heq & Hb & Hm & Hf).
  exists before, name, slug, after.
  assert (Hget : getitem (matching_slugs team_name) 0 = Ok slug).
  { unfold matching_slugs. by rewrite Hf. }
  repeat split; try done.
  unfold change_url. by rewrite Hget.
Qed.

(** C8.  When no entry of [teams] matches, the list of slugs is empty, the
    access to its first element raises [IndexError], and the instance, its
    URL included, is as it was. *)
Theorem change_url_no_match (self : TeamStats) (team_name : string) :
  Forall (λ n, contains (lower team_name) (lower n.1) = false) teams →
  matching_slugs team_name = [] ∧
  change_url self team_name = (self, Raise IndexError) ∧
  url (change_url self team_name).1 = url self.
Proof.
  intros Hno.
  assert (Hnil : matching_slugs team_name = []).
  { unfold matching_slugs.
    by rewrite (filter_no_match (team_matches team_name) teams Hno). }
  assert (Hch : change_url self team_name = (self, Raise IndexError)).
  { unfold change_url. by rewrite Hnil. }
  split; [done|]. split; [done|]. by rewrite Hch.
Qed.

End Lookup.

(** * The sample page *)

Section SamplePage.
Import DecimalCast.
Import Sample.

Example sample_lines :
  lines = ["1"; "Boston Red Sox"; "10 .250 .330";
           "2"; "New York Yankees"; "12 .275 .301"].
Proof. reflexivity. Qed.

Example sample_markers : marker_indices lines = [0; 3]%nat.
Proof. reflexivity. Qed.

Example sample_clean_raw : clean_raw text 4 = Ok frame.
Proof. reflexivity. Qed.

Example sample_data_mung : data_mung frame = (coerced, Ok ()).
Proof. reflexivity. Qed.

Example sample_ragged_rows :
  make_DataFrame [["a"; "1"; "2"]; ["b"; "3"]] ["TEAM"; "H"; "AB"] =
  Ok {| index := 2;
        cols := [("TEAM", ObjectSeries [Some "a"; Some "b"]);
                 ("H", ObjectSeries [Some "1"; Some "3"]);
                 ("AB", ObjectSeries [Some "2"; None])] |}.
Proof. reflexivity. Qed.

Example sample_wrong_width :
  make_DataFrame [["a"; "1"; "2"]] ["TEAM"; "H"] = Raise ValueError.
Proof. reflexivity. Qed.

Example sample_overlap :
  scan short_lines = Ok [["NY"; "3"; "4"]; ["3 4"; "x"]].
Proof. reflexivity. Qed.

Example sample_lookup :
  url (change_url TeamStats_init "red sox").1 =
  "https://www.mlb.com/redsox/stats/team/".
Proof. reflexivity. Qed.

Lemma sample_StatTable : StatTable frame.
Proof.
  split.
  - apply (bool_decide_unpack _). exact I.
  - repeat constructor.
Defined.

Lemma sample_only_ValueError : only_ValueError (cols frame).
Proof.
  intros n s e Hin Hs. simpl in Hin.
  repeat (apply elem_of_cons in Hin as [Heq|Hin];
          [injection Heq as -> ->;
           first [discriminate Hs
                 |change (@Raise Series ValueError = Raise e) in Hs; congruence]|]).
  by apply elem_of_nil in Hin.
Defined.

(** *** The claims at the sample page *)

Lemma clean_raw_row_of_marker_witness :
  ∃ name vs, cols frame !! 0%nat = Some (name, ObjectSeries vs) ∧
             vs !! 1%nat = Some (Some "New York Yankees").
Proof.
  pose proof (clean_raw_row_of_marker text 4) as Hrows. cbv zeta in Hrows.
  destruct Hrows as (rows & _ & _ & _ & Hrows).
  destruct (Hrows 1%nat 3%nat eq_refl) as (team_name & num_data & Ht & _ & _ & Hdf).
  change (Some "New York Yankees" = Some team_name) in Ht.
  injection Ht as <-.
  exact (Hdf frame sample_clean_raw).
Defined.

Lemma clean_raw_shape_witness :
  Forall (λ i, length (row_at lines i) = 4%nat) (marker_indices lines) ∧
  ∃ df, clean_raw text 4 = Ok df ∧
        columns df = ["TEAM"; "H"; "AVG"; "OBP"] ∧ index df = 2%nat.
Proof.
  assert (Hvalid : Forall (λ i, length (row_at lines i) = 4%nat)
                     (marker_indices lines)) by (repeat constructor).
  split; [exact Hvalid|].
  destruct (clean_raw_shape text 4 Hvalid) as (df & Hdf & Hc & _ & _ & Hi & _).
  exists df. split; [exact Hdf|]. split; [exact Hc|exact Hi].
Defined.

Lemma scan_rows_overlap_witness :
  short_lines !! 0%nat = Some "1" ∧ len_str "1" ≤ 2 ∧ len_str "NY" ≤ 2 ∧
  ∃ rows (k k' : nat),
    scan short_lines = Ok rows ∧ (k < k')%nat ∧
    rows !! k = Some ["NY"; "3"; "4"] ∧ rows !! k' = Some ["3 4"; "x"].
Proof.
  assert (H1 : len_str "1" ≤ 2) by (unfold len_str; simpl; lia).
  assert (H2 : len_str "NY" ≤ 2) by (unfold len_str; simpl; lia).
  split; [reflexivity|]. split; [exact H1|]. split; [exact H2|].
  destruct (scan_rows_overlap short_lines 0 "1" "NY" "3 4" "x"
              eq_refl H1 eq_refl eq_refl eq_refl)
    as (rows & k & Hscan & Hk & Hteam & _).
  destruct (Hteam H2) as (k' & Hlt & Hk').
  exists rows, k, k'. split; [exact Hscan|]. split; [exact Hlt|].
  split; [exact Hk|exact Hk'].
Defined.

Lemma data_mung_policy_witness :
  StatTable frame ∧ only_ValueError (cols frame) ∧
  ∃ df', data_mung frame = (df', Ok ()) ∧ df' = coerced.
Proof.
  split; [exact sample_StatTable|]. split; [exact sample_only_ValueError|].
  destruct (data_mung_policy frame sample_StatTable sample_only_ValueError)
    as (df' & Hdm & _).
  exists df'. split; [exact Hdm|].
  rewrite sample_data_mung in Hdm. by injection Hdm.
Defined.

Lemma data_mung_idempotent_witness :
  StatTable frame ∧ data_mung (data_mung frame).1 = data_mung frame.
Proof.
  split; [exact sample_StatTable|].
  exact (data_mung_idempotent frame sample_StatTable).
Defined.

Lemma data_mung_swallows_ValueError_witness :
  let team := ObjectSeries [Some "Boston Red Sox"; Some "New York Yankees"] in
  StatTable frame ∧
  cols frame !! 0%nat = Some ("TEAM", team) ∧
  astype team (target "TEAM") = Raise ValueError ∧
  cols (data_mung frame).1 !! 0%nat = Some ("TEAM", team) ∧
  (data_mung frame).2 ≠ Raise ValueError.
Proof.
  intros team.
  destruct (data_mung_swallows_ValueError frame 0 "TEAM" team
              sample_StatTable eq_refl eq_refl) as (Hsame & Hno & _).
  split; [exact sample_StatTable|]. split; [reflexivity|].
  split; [reflexivity|]. split; [exact Hsame|exact Hno].
Defined.

Lemma change_url_first_match_witness :
  (∃ n, n ∈ teams ∧ contains (lower "red sox") (lower n.1) = true) ∧
  change_url TeamStats_init "red sox" =
    ({| headless := true;
        url := "https://www.mlb.com/redsox/stats/team/";
        hit_stats := None;
        pitch_stats := None |}, Ok ()).
Proof.
  assert (Hex : ∃ n, n ∈ teams ∧ contains (lower "red sox") (lower n.1) = true).
  { exists ("Boston Red Sox", "redsox"). split; [|reflexivity].
    apply list_elem_of_In. simpl. tauto. }
  split; [exact Hex|].
  destruct (change_url_first_match TeamStats_init "red sox" Hex)
    as [(before & name & slug & after & _ & _ & _ & Hget & Hch) _].
  change (@Ok string "redsox" = Ok slug) in Hget.
  injection Hget as <-. exact Hch.
Defined.

Lemma change_url_no_match_witness :
  Forall (λ n, contains (lower "zzz-no-team") (lower n.1) = false) teams ∧
  change_url TeamStats_init "zzz-no-team" = (TeamStats_init, Raise IndexError).
Proof.
  assert (Hno : Forall (λ n, contains (lower "zzz-no-team") (lower n.1) = false)
                  teams) by (repeat constructor).
  split; [exact Hno|].
  exact (proj1 (proj2 (change_url_no_match TeamStats_init "zzz-no-team" Hno))).
Defined.


End SamplePage.

(** * Further properties of the table parser *)

Section Fields.

Lemma split_length (sep : ascii) (s : string) :
  length (split sep s) = S (count_char sep s).
Proof.
  induction s as [|c s IH]; [done|]. simpl.
  destruct (Ascii.eqb c sep); simpl; [by rewrite IH|].
  destruct (split sep s) as [|w ws]; [done|]. exact IH.
Qed.

Lemma join_split (sep : ascii) (s : string) :
  join sep (split sep s) = s.
Proof.
  induction s as [|c s IH]; [done|]. simpl.
  destruct (Ascii.eqb_spec c sep) as [->|Hne].
  - pose proof (split_length sep s) as Hlen.
    destruct (split sep s) as [|w ws]; [done|].
    simpl in *. by rewrite IH.
  - destruct (split sep s) as [|w ws] eqn:Hs.
    + pose proof (split_length sep s) as Hlen. by rewrite Hs in Hlen.
    + simpl in *. destruct ws; simpl in *; by rewrite <- IH.
Qed.

Lemma split_pieces (sep : ascii) (s : string) :
  Forall (λ w, count_char sep w = 0%nat) (split sep s).
Proof.
  induction s as [|c s IH]; simpl; [by repeat constructor|].
  destruct (Ascii.eqb c sep) eqn:Hc; [by constructor|].
  destruct (split sep s) as [|w ws].
  - constructor; [|done]. simpl. by rewrite Hc.
  - apply Forall_cons in IH as [Hw Hws].
    constructor; [|done]. simpl. by rewrite Hc.
Qed.

(** The scan, line by line from the front. *)
Lemma marker_indices_cons (line : string) (rest : list string) :
  (2 ≤ length rest)%nat →
  marker_indices (line :: rest) =
  (if len_str line <=? 2 then [0%nat] else []) ++ (S <$> marker_indices rest).
Proof.
  intros Hlen. unfold marker_indices.
  replace (length (line :: rest) - 2)%nat with (S (length rest - 2))
    by (simpl; lia).
  rewrite <- cons_seq. cbn [List.filter short_line lookup list_lookup].
  rewrite <- fmap_S_seq.
  assert (Htail : ∀ l, List.filter (short_line (line :: rest)) (S <$> l) =
                       S <$> List.filter (short_line rest) l).
  { induction l as [|i l IH]; [done|].
    change (S <$> i :: l) with (S i :: (S <$> l)).
    cbn [List.filter]. rewrite IH.
    change (short_line (line :: rest) (S i)) with (short_line rest i).
    by destruct (short_line rest i). }
  rewrite Htail. by destruct (len_str line <=? 2).
Qed.

Lemma marker_indices_short (data : list string) :
  (length data ≤ 2)%nat → marker_indices data = [].
Proof.
  intros Hlen. unfold marker_indices.
  by replace (length data - 2)%nat with 0%nat by lia.
Qed.

Lemma scan_window_rows (data : list string) :
  scan data = Ok (window_rows data).
Proof.
  rewrite scan_rows. f_equal.
  induction data as [|line rest IH]; [done|].
  destruct rest as [|team_name [|num_data rest]];
    [by rewrite marker_indices_short by (simpl; lia)..|].
  rewrite marker_indices_cons by (simpl; lia).
  cbn [window_rows]. rewrite fmap_app, <- list_fmap_compose.
  rewrite (list_fmap_ext (row_at (line :: team_name :: num_data :: rest) ∘ S)
             (row_at (team_name :: num_data :: rest))) by done.
  rewrite IH. by destruct (len_str line <=? 2).
Qed.

End Fields.

Section ParserMore.
Context `{NumpyCast}.

Lemma clean_raw_window (text : string) (head_ind_start : Z) :
  clean_raw text head_ind_start =
  make_DataFrame (window_rows (slice_from (split newline text) head_ind_start))
    (slice_to (split newline text) head_ind_start).
Proof. unfold clean_raw. by rewrite scan_window_rows. Qed.

Lemma window_rows_width (data : list string) :
  Forall (λ row, (2 ≤ length row)%nat) (window_rows data).
Proof.
  induction data as [|line rest IH]; [constructor|].
  destruct rest as [|team_name [|num_data rest]]; [constructor..|].
  cbn [window_rows]. destruct (len_str line <=? 2); [|done].
  constructor; [|done]. simpl. rewrite split_length. lia.
Qed.

Lemma window_rows_marker (data : list string) (k : nat) row :
  window_rows data !! k = Some row →
  ∃ (i : nat) team_name num_data,
    marker_indices data !! k = Some i ∧
    data !! (i + 1)%nat = Some team_name ∧
    data !! (i + 2)%nat = Some num_data ∧
    row = team_name :: split space num_data.
Proof.
  intros Hk.
  assert (Hrows : row_at data <$> marker_indices data = window_rows data).
  { pose proof (scan_rows data) as Hs. rewrite scan_window_rows in Hs.
    by injection Hs. }
  rewrite <- Hrows, list_lookup_fmap in Hk.
  destruct (marker_indices data !! k) as [i|] eqn:Hi; [|done].
  injection Hk as <-.
  destruct (marker_index_lines _ _ _ Hi) as (_ & t & d & _ & _ & Ht & Hd & Hrow).
  by exists i, t, d.
Qed.

Lemma make_DataFrame_cols rows headers df :
  make_DataFrame rows headers = Ok df →
  index df = length rows ∧
  cols df = imap (λ j name, (name, ObjectSeries ((λ row, row !! j) <$> rows))) headers.
Proof.
  unfold make_DataFrame. destruct rows as [|r rows].
  - intros [= <-]. split; [done|]. simpl.
    by rewrite (imap_ext _ (const (λ name, (name, ObjectSeries [])))), imap_const.
  - case_decide; [|done]. by intros [= <-].
Qed.

Lemma make_DataFrame_raise rows headers e :
  make_DataFrame rows headers = Raise e ↔
  e = ValueError ∧ rows ≠ [] ∧ row_width rows ≠ length headers.
Proof.
  unfold make_DataFrame. destruct rows as [|r rows].
  - split; [done|]. by intros (_ & ? & _).
  - case_decide as Hw.
    + split; [done|]. by intros (_ & _ & ?).
    + split; [by intros [= <-]|]. by intros (-> & _).
Qed.

Lemma row_width_ge rows row :
  row ∈ rows → (length row ≤ row_width rows)%nat.
Proof.
  intros Hin. apply max_list_elem_of_le, list_elem_of_fmap. by exists row.
Qed.

(** X1.  The header lines and the data lines are the lines of the text, cut in
    two: whatever the header count, negative or beyond the end, no line is
    lost and none is used twice.  A negative count leaves that many lines,
    from the end, as data. *)
Theorem clean_raw_lines_partition (text : string) (head_ind_start : Z) :
  let raw_data := split newline text in
  let headers := slice_to raw_data head_ind_start in
  let data := slice_from raw_data head_ind_start in
  headers ++ data = raw_data ∧
  (0 ≤ head_ind_start → len headers = Z.min head_ind_start (len raw_data)) ∧
  (head_ind_start < 0 → len data = Z.min (- head_ind_start) (len raw_data)).
Proof.
  intros raw_data headers data. unfold headers, data, slice_to, slice_from.
  split; [apply take_drop|].
  unfold len, slice_bound. rewrite length_take, length_drop.
  split; intros Hh; destruct (Z.ltb_spec head_ind_start 0); lia.
Qed.

(** X2.  When no line that the scan reaches has at most 2 characters,
    [clean_raw] returns a frame without rows whose columns are the header
    lines, each an empty text column; no exception is raised.  This is so
    in particular when fewer than 3 lines follow the headers. *)
Theorem clean_raw_no_marker (text : string) (head_ind_start : Z) :
  let raw_data := split newline text in
  let headers := slice_to raw_data head_ind_start in
  let data := slice_from raw_data head_ind_start in
  (∀ (i : nat) line, (i + 2 < length data)%nat → data !! i = Some line →
     2 < len_str line) →
  clean_raw text head_ind_start =
  Ok {| index := 0; cols := (λ name, (name, ObjectSeries [])) <$> headers |}.
Proof.
  intros raw_data headers data Hlong.
  assert (Hnone : marker_indices data = []).
  { destruct (marker_indices data) as [|i l] eqn:Hm; [done|].
    assert (Hi : i ∈ marker_indices data) by (rewrite Hm; left).
    apply elem_of_marker_indices in Hi as (Hlt & line & Hline & Hshort).
    specialize (Hlong i line Hlt Hline). lia. }
  unfold clean_raw. fold raw_data. fold data. fold headers.
  by rewrite scan_rows, Hnone.
Qed.

(** X3.  [clean_raw] raises exactly when at least one row is recognised and the
    longest row does not have as many values as there are header lines;
    the exception is then [ValueError], never another one. *)
Theorem clean_raw_raise_iff (text : string) (head_ind_start : Z) (e : exn) :
  let raw_data := split newline text in
  let headers := slice_to raw_data head_ind_start in
  let rows := window_rows (slice_from raw_data head_ind_start) in
  clean_raw text head_ind_start = Raise e ↔
  e = ValueError ∧ rows ≠ [] ∧ row_width rows ≠ length headers.
Proof.
  intros raw_data headers rows. rewrite clean_raw_window.
  apply make_DataFrame_raise.
Qed.

(** X4.  A recognised row always has at least two values, so with fewer than two
    header lines (a header count of 0 or 1, say) a text in which a row is
    recognised makes [clean_raw] raise [ValueError]. *)
Theorem clean_raw_too_few_headers (text : string) (head_ind_start : Z) :
  let raw_data := split newline text in
  let headers := slice_to raw_data head_ind_start in
  let rows := window_rows (slice_from raw_data head_ind_start) in
  rows ≠ [] → (length headers < 2)%nat →
  clean_raw text head_ind_start = Raise ValueError.
Proof.
  intros raw_data headers rows Hrows Hfew. rewrite clean_raw_window.
  apply make_DataFrame_raise. split; [done|]. split; [done|].
  change (row_width rows ≠ length headers).
  pose proof (window_rows_width (slice_from raw_data head_ind_start)) as Hall.
  change (Forall (λ row, (2 ≤ length row)%nat) rows) in Hall.
  clearbody rows headers.
  destruct rows as [|row rows']; [done|].
  apply Forall_cons in Hall as [Hw _].
  assert (Hge : (length row ≤ row_width (row :: rows'))%nat)
    by (apply row_width_ge; left).
  lia.
Qed.

(** X5.  The number of values of a row is 2 plus the number of spaces of its
    data line: every space separates two values, so two spaces in a row
    give an empty value and a longer row. *)
Theorem scan_row_length (data : list string) rows (k : nat) row :
  scan data = Ok rows → rows !! k = Some row →
  ∃ (i : nat) num_data,
    marker_indices data !! k = Some i ∧
    data !! (i + 2)%nat = Some num_data ∧
    length row = (2 + count_char space num_data)%nat.
Proof.
  rewrite scan_window_rows. intros [= <-] Hk.
  destruct (window_rows_marker _ _ _ Hk) as (i & t & d & Hi & _ & Hd & ->).
  exists i, d. split; [done|]. split; [done|].
  simpl. by rewrite split_length.
Qed.

(** X6.  The values of a row after the team name are the data line cut at its
    spaces and nothing else: none of them contains a space, and joined by
    single spaces they give the data line back. *)
Theorem scan_row_round_trip (data : list string) rows (k : nat) row :
  scan data = Ok rows → rows !! k = Some row →
  ∃ (i : nat) team_name num_data,
    marker_indices data !! k = Some i ∧
    data !! (i + 1)%nat = Some team_name ∧
    data !! (i + 2)%nat = Some num_data ∧
    row !! 0%nat = Some team_name ∧
    Forall (λ w, count_char space w = 0%nat) (drop 1 row) ∧
    join space (drop 1 row) = num_data.
Proof.
  rewrite scan_window_rows. intros [= <-] Hk.
  destruct (window_rows_marker _ _ _ Hk) as (i & t & d & Hi & Ht & Hd & ->).
  exists i, t, d. repeat split; try done.
  - apply split_pieces.
  - apply join_split.
Qed.

(** X7.  In a frame [clean_raw] returns every column is a text column named by
    its header line, and its [k]-th value is the [j]-th value of the [k]-th
    row, or [None] when that row has no [j]-th value. *)
Theorem clean_raw_cells (text : string) (head_ind_start : Z) df :
  let raw_data := split newline text in
  let headers := slice_to raw_data head_ind_start in
  let rows := window_rows (slice_from raw_data head_ind_start) in
  clean_raw text head_ind_start = Ok df →
  index df = length rows ∧
  length (cols df) = length headers ∧
  ∀ (j : nat) name, headers !! j = Some name →
    ∃ vs, cols df !! j = Some (name, ObjectSeries vs) ∧
          length vs = length rows ∧
          ∀ (k : nat) row, rows !! k = Some row → vs !! k = Some (row !! j).
Proof.
  intros raw_data headers rows. rewrite clean_raw_window.
  intros Hdf. apply make_DataFrame_cols in Hdf as [Hi Hc].
  split; [done|]. rewrite Hc. split; [by rewrite length_imap|].
  intros j name Hj. eexists. split; [|split].
  - rewrite list_lookup_imap. fold raw_data. fold headers. by rewrite Hj.
  - by rewrite length_fmap.
  - intros k row Hk. rewrite list_lookup_fmap. fold raw_data. fold rows.
    by rewrite Hk.
Qed.

End ParserMore.

Section Records.
Context `{NumpyCast}.

Lemma window_rows_step (line team_name num_data : string) (rest : list string) :
  window_rows (line :: team_name :: num_data :: rest) =
  if len_str line <=? 2
  then (team_name :: split space num_data) :: window_rows (team_name :: num_data :: rest)
  else window_rows (team_name :: num_data :: rest).
Proof. done. Qed.

Lemma window_rows_skip (team_name num_data : string) (rest : list string) :
  2 < len_str team_name → 2 < len_str num_data →
  window_rows (team_name :: num_data :: rest) = window_rows rest.
Proof.
  intros Ht Hd.
  assert (Ht' : (len_str team_name <=? 2) = false) by (apply Z.leb_gt; lia).
  assert (Hd' : (len_str num_data <=? 2) = false) by (apply Z.leb_gt; lia).
  destruct rest as [|x [|y rest]]; cbn [window_rows]; rewrite ?Ht', ?Hd'; done.
Qed.

Lemma window_rows_records (records : list (string * string * string)) :
  Forall well_formed records →
  window_rows (record_lines records) = record_row <$> records.
Proof.
  induction 1 as [|[[idx team_name] num_data] records (Hi & Ht & Hd) _ IH];
    [done|].
  change (record_lines ((idx, team_name, num_data) :: records))
    with (idx :: team_name :: num_data :: record_lines records).
  rewrite window_rows_step.
  assert (Hi' : (len_str idx <=? 2) = true) by (apply Z.leb_le; lia).
  rewrite Hi', window_rows_skip, IH by done. done.
Qed.

Lemma slice_app_length {A} (l1 l2 : list A) :
  slice_to (l1 ++ l2) (len l1) = l1 ∧ slice_from (l1 ++ l2) (len l1) = l2.
Proof.
  unfold slice_to, slice_from, len.
  assert (Hb : slice_bound (length (l1 ++ l2)) (Z.of_nat (length l1)) = length l1).
  { unfold slice_bound. rewrite length_app.
    destruct (Z.ltb_spec (Z.of_nat (length l1)) 0); lia. }
  rewrite Hb. split; [apply take_app_length|apply drop_app_length].
Qed.

(** X8.  A text made of header lines followed by well-formed records, each with
    as many values as there are headers, parses to exactly one row per
    record, in the order of the page: the column of the [j]-th header holds
    the [j]-th value of every record. *)
Theorem clean_raw_records (text : string) (headers : list string)
    (records : list (string * string * string)) :
  split newline text = headers ++ record_lines records →
  Forall well_formed records →
  Forall (λ r, length (record_row r) = length headers) records →
  ∃ df,
    clean_raw text (len headers) = Ok df ∧
    columns df = headers ∧
    index df = length records ∧
    ∀ (j : nat) name, headers !! j = Some name →
      cols df !! j =
      Some (name, ObjectSeries ((λ r, record_row r !! j) <$> records)).
Proof.
  intros Hlines Hwf Hwidth.
  destruct (slice_app_length headers (record_lines records)) as [Hh Hd].
  assert (Hclean : clean_raw text (len headers) =
                   make_DataFrame (record_row <$> records) headers).
  { rewrite clean_raw_window, Hlines, Hh, Hd.
    by rewrite window_rows_records. }
  destruct (make_DataFrame_total (record_row <$> records) headers)
    as [df Hdf]; [by apply Forall_fmap|].
  exists df. rewrite Hclean. split; [done|].
  destruct (make_DataFrame_shape _ _ _ Hdf) as (Hc & _ & _).
  destruct (make_DataFrame_cols _ _ _ Hdf) as (Hi & Hcols).
  split; [done|]. split; [by rewrite Hi, length_fmap|].
  intros j name Hj. rewrite Hcols, list_lookup_imap, Hj. simpl.
  by rewrite <- list_fmap_compose.
Qed.

End Records.

(** * Further properties of the type coercion *)

Section CoercionMore.
Context `{NumpyCast}.

Lemma coerce_cols_abort cs e :
  (coerce_cols cs).2 = Raise e →
  ∃ before n s after,
    cs = before ++ (n, s) :: after ∧
    astype s (target n) = Raise e ∧ e ≠ ValueError ∧
    only_ValueError before ∧
    (coerce_cols cs).1 =
      ((λ c, (c.1, coerce c.1 c.2)) <$> before) ++ (n, s) :: after.
Proof.
  induction cs as [|[n0 s0] cs IH]; [done|]. simpl.
  destruct (astype s0 (target n0)) as [s'|e0] eqn:Hs0.
  - destruct (coerce_cols cs) as [r e'] eqn:Hr. simpl in *. intros He.
    destruct (IH He) as (before & n & s & after & -> & Hs & Hne & Hve & Hcs).
    exists ((n0, s0) :: before), n, s, after.
    split; [done|]. split; [done|]. split; [done|]. split.
    + intros n1 s1 e1 [[= -> ->]|Hin]%elem_of_cons He1; [congruence|].
      by apply (Hve n1 s1).
    + simpl. unfold coerce at 1. by rewrite Hs0, Hcs.
  - destruct (decide (e0 = ValueError)) as [->|Hne0].
    + destruct (coerce_cols cs) as [r e'] eqn:Hr. simpl in *. intros He.
      destruct (IH He) as (before & n & s & after & -> & Hs & Hne & Hve & Hcs).
      exists ((n0, s0) :: before), n, s, after.
      split; [done|]. split; [done|]. split; [done|]. split.
      * intros n1 s1 e1 [[= -> ->]|Hin]%elem_of_cons He1; [congruence|].
        by apply (Hve n1 s1).
      * simpl. unfold coerce at 1. by rewrite Hs0, Hcs.
    + assert (Hres : (match e0 with
                      | ValueError =>
                          let '(r, e1) := coerce_cols cs in ((n0, s0) :: r, e1)
                      | _ => ((n0, s0) :: cs, Raise e0)
                      end) = ((n0, s0) :: cs, Raise e0)) by by destruct e0.
      rewrite Hres. simpl. intros [= <-].
      exists [], n0, s0, cs. repeat split; try done.
      intros n1 s1 e1 Hin. by apply elem_of_nil in Hin.
Qed.

(** X9.  When [data_mung] ends with an exception, it is the exception of the
    conversion of one column, and not a [ValueError]; the columns before
    that one have been treated and stay so, and that column and all the
    columns after it are as they were: what the call has done is not
    undone, and the rest is not attempted. *)
Theorem data_mung_abort (df : DataFrame) (e : exn) :
  StatTable df → (data_mung df).2 = Raise e →
  ∃ (j : nat) col s,
    cols df !! j = Some (col, s) ∧
    astype s (target col) = Raise e ∧ e ≠ ValueError ∧
    (∀ (i : nat) n r, (i < j)%nat → cols df !! i = Some (n, r) →
       cols (data_mung df).1 !! i = Some (n, coerce n r)) ∧
    (∀ i : nat, (j ≤ i)%nat → cols (data_mung df).1 !! i = cols df !! i).
Proof.
  intros [Hnd _]. rewrite (data_mung_coerce_cols _ Hnd). simpl. intros He.
  destruct (coerce_cols_abort _ _ He)
    as (before & n & s & after & Hcs & Hs & Hne & _ & Hres).
  exists (length before), n, s. rewrite Hres, Hcs.
  split; [by rewrite list_lookup_middle|]. split; [done|]. split; [done|].
  split.
  - intros i n1 r1 Hi Hl.
    rewrite lookup_app_l in Hl by done.
    rewrite lookup_app_l by (by rewrite length_fmap).
    by rewrite list_lookup_fmap, Hl.
  - intros i Hi.
    rewrite !lookup_app_r by (rewrite ?length_fmap; done).
    by rewrite length_fmap.
Qed.

End CoercionMore.

(** * Further properties of the team lookup *)

Section LookupMore.
Context `{NumpyCast}.

Lemma append_assoc (a b c : string) : (a +:+ b) +:+ c = a +:+ (b +:+ c).
Proof.
  induction a as [|x a IH]; [done|].
  change (String x ((a +:+ b) +:+ c) = String x (a +:+ (b +:+ c))).
  by rewrite IH.
Qed.

Lemma append_cons (x : ascii) (a b : string) :
  String x a +:+ b = String x (a +:+ b).
Proof. done. Qed.

Lemma prefix_iff (a b : string) :
  String.prefix a b = true ↔ ∃ post, b = a +:+ post.
Proof.
  revert b. induction a as [|x a IH]; intros b.
  - destruct b; simpl; split; eauto.
  - destruct b as [|y b]; simpl.
    + split; [done|]. by intros [post ?].
    + destruct (ascii_dec x y) as [->|Hne].
      * rewrite IH. split; intros [post Hp]; exists post;
          rewrite append_cons in *; congruence.
      * split; [done|]. intros [post Hp].
        rewrite append_cons in Hp. congruence.
Qed.

Lemma contains_iff (needle hay : string) :
  contains needle hay = true ↔ ∃ pre post, hay = pre +:+ needle +:+ post.
Proof.
  induction hay as [|y hay IH].
  - cbn [contains]. rewrite orb_false_r, prefix_iff. split.
    + intros [post Hp]. by exists EmptyString, post.
    + intros (pre & post & Hp). destruct pre; [by exists post|done].
  - cbn [contains]. rewrite orb_true_iff, prefix_iff, IH. split.
    + intros [[post Hp]|(pre & post & Hp)].
      * by exists EmptyString, post.
      * exists (String y pre), post. by rewrite append_cons, Hp.
    + intros (pre & post & Hp). destruct pre as [|x pre].
      * left. by exists post.
      * right. rewrite append_cons in Hp. injection Hp as _ Hp.
        by exists pre, post.
Qed.

Lemma contains_trans (a b c : string) :
  contains a b = true → contains b c = true → contains a c = true.
Proof.
  rewrite !contains_iff.
  intros (p1 & q1 & ->) (p2 & q2 & ->).
  exists (p2 +:+ p1), (q1 +:+ q2). by rewrite !append_assoc.
Qed.

Lemma getitem_head {A} (x : A) (l : list A) : getitem (x :: l) 0 = Ok x.
Proof. done. Qed.

Lemma matching_slug_listed (team_name slug : string) :
  slug ∈ matching_slugs team_name → ∃ name, (name, slug) ∈ teams.
Proof.
  unfold matching_slugs. intros ([name slug'] & -> & Hin)%list_elem_of_fmap.
  exists name. apply list_elem_of_In in Hin. apply filter_In in Hin as [Hin _].
  by apply list_elem_of_In.
Qed.

Lemma change_url_slugs (self : TeamStats) (team_name : string) :
  change_url self team_name =
  match matching_slugs team_name with
  | [] => (self, Raise IndexError)
  | slug :: _ =>
      ({| headless := headless self;
          url := team_url slug;
          hit_stats := hit_stats self;
          pitch_stats := pitch_stats self |}, Ok ())
  end.
Proof. unfold change_url. by destruct (matching_slugs team_name). Qed.

(** X10.  [change_url] touches nothing but the address.  When it returns, the
    address is that of a team of the list; when it raises, the exception is
    [IndexError] and the instance is as it was. *)
Theorem change_url_frame (self : TeamStats) (team_name : string) :
  headless (change_url self team_name).1 = headless self ∧
  hit_stats (change_url self team_name).1 = hit_stats self ∧
  pitch_stats (change_url self team_name).1 = pitch_stats self ∧
  match (change_url self team_name).2 with
  | Ok _ =>
      ∃ name slug, (name, slug) ∈ teams ∧
        url (change_url self team_name).1 =
        "https://www.mlb.com/" +:+ slug +:+ "/stats/team/"
  | Raise e => e = IndexError ∧ (change_url self team_name).1 = self
  end.
Proof.
  rewrite change_url_slugs.
  destruct (matching_slugs team_name) as [|slug l] eqn:Hm; simpl; [done|].
  repeat split.
  destruct (matching_slug_listed team_name slug) as [name Hin];
    [rewrite Hm; left|].
  by exists name, slug.
Qed.

(** X11.  Two calls in a row: a second call that finds a team gives the result it
    would give on the first instance, whatever the first call did; a second
    call that finds none leaves what the first call left.  Calling twice
    with the same name is the same as calling once. *)
Theorem change_url_twice (self : TeamStats) (a b : string) :
  change_url (change_url self a).1 b =
    match matching_slugs b with
    | [] => ((change_url self a).1, Raise IndexError)
    | _ => change_url self b
    end ∧
  change_url (change_url self a).1 a = change_url self a.
Proof.
  rewrite !(change_url_slugs _ b), !(change_url_slugs _ a). split.
  - destruct (matching_slugs b); [done|].
    by destruct (matching_slugs a).
  - by destruct (matching_slugs a).
Qed.

(** X12.  Every team of the list is found by its own name as the list spells it:
    no earlier entry has a name that contains it. *)
Theorem change_url_listed_name (self : TeamStats) (name slug : string) :
  (name, slug) ∈ teams →
  change_url self name =
    ({| headless := headless self;
        url := "https://www.mlb.com/" +:+ slug +:+ "/stats/team/";
        hit_stats := hit_stats self;
        pitch_stats := pitch_stats self |}, Ok ()).
Proof.
  intros Hin.
  assert (Hall : forallb (λ n : string * string,
                    match matching_slugs n.1 with
                    | s :: _ => String.eqb s n.2
                    | [] => false
                    end) teams = true) by (vm_compute; reflexivity).
  apply list_elem_of_In in Hin.
  pose proof (proj1 (forallb_forall _ _) Hall _ Hin) as Hfound.
  simpl in Hfound. rewrite change_url_slugs.
  destruct (matching_slugs name) as [|s l]; [done|].
  by apply String.eqb_eq in Hfound as ->.
Qed.

(** X13.  The list spells two names its own way ("Philadeliphia", "Cardenals"):
    an input that contains the usual spelling of either word, in any letter
    case, matches no entry, so [change_url] raises [IndexError] and leaves
    the instance as it was. *)
Theorem change_url_usual_spelling (self : TeamStats) (team_name : string) :
  contains "philadelphia" (lower team_name) = true ∨
  contains "cardinals" (lower team_name) = true →
  change_url self team_name = (self, Raise IndexError).
Proof.
  intros Hword.
  assert (Hnone : ∀ word,
            contains word (lower team_name) = true →
            forallb (λ n : string * string, negb (contains word (lower n.1)))
              teams = true →
            matching_slugs team_name = []).
  { intros word Hw Hall. unfold matching_slugs.
    rewrite (filter_no_match (team_matches team_name) teams); [done|].
    apply Forall_forall. intros n Hn%list_elem_of_In.
    pose proof (proj1 (forallb_forall _ _) Hall _ Hn) as Hlack.
    cbv beta in Hlack. unfold team_matches.
    destruct (contains (lower team_name) (lower n.1)) eqn:Hc; [|done].
    by rewrite (contains_trans _ _ _ Hw Hc) in Hlack. }
  rewrite change_url_slugs.
  destruct Hword as [Hw|Hw].
  - by rewrite (Hnone "philadelphia" Hw) by (vm_compute; reflexivity).
  - by rewrite (Hnone "cardinals" Hw) by (vm_compute; reflexivity).
Qed.

End LookupMore.

(** * Properties of the fetch cycle *)

Section Fetch.
Context `{NumpyCast}.

Lemma clean_raw_all_text (text : string) (head_ind_start : Z) df :
  clean_raw text head_ind_start = Ok df →
  Forall (λ c, ∃ vs, c.2 = ObjectSeries vs) (cols df).
Proof.
  rewrite clean_raw_window. intros [_ ->]%make_DataFrame_cols.
  apply Forall_forall. intros c (j & name & -> & _)%elem_of_lookup_imap_1.
  by eexists.
Qed.

Lemma clean_raw_columns (text : string) (head_ind_start : Z) df :
  clean_raw text head_ind_start = Ok df →
  columns df = slice_to (split newline text) head_ind_start.
Proof.
  rewrite clean_raw_window. by intros (? & _)%make_DataFrame_shape.
Qed.

Lemma clean_raw_ValueError (text : string) (head_ind_start : Z) e :
  clean_raw text head_ind_start = Raise e → e = ValueError.
Proof.
  rewrite clean_raw_window. by intros (? & _)%make_DataFrame_raise.
Qed.

Lemma data_mung_again (df : DataFrame) :
  NoDup (columns df) → data_mung (data_mung df).1 = data_mung df.
Proof.
  intros Hnd. rewrite (data_mung_coerce_cols df Hnd). simpl.
  rewrite data_mung_coerce_cols; simpl.
  - by rewrite coerce_cols_idempotent.
  - unfold columns. simpl. by rewrite coerce_cols_names.
Qed.

Lemma data_mung_columns (df : DataFrame) :
  columns (data_mung df).1 = columns df.
Proof. by destruct (mung_loop_frame (columns df) df) as (? & _). Qed.

(** X14.  [pull_data] never changes the address or the headless flag, whatever
    the browser delivers and however the call ends; and when the hitting
    block does not parse, the call raises [ValueError] and the instance,
    with the tables of an earlier fetch, is as it was. *)
Theorem pull_data_frame (self : TeamStats) (browse : string → string * string) :
  url (pull_data self browse).1 = url self ∧
  headless (pull_data self browse).1 = headless self ∧
  ∀ e, clean_raw (browse (url self)).1 18 = Raise e →
       pull_data self browse = (self, Raise ValueError).
Proof.
  unfold pull_data. destruct (browse (url self)) as [hit_text pitch_text].
  simpl. destruct (clean_raw hit_text 18) as [hit|e0] eqn:Hhit.
  - split; [|split; [|done]];
      destruct (clean_raw pitch_text 21) as [pitch|e1]; try done;
      destruct (data_mung hit) as [hit' [[]|e2]]; try done;
      by destruct (data_mung pitch).
  - split; [done|]. split; [done|]. intros e [= <-].
    by rewrite (clean_raw_ValueError _ _ _ Hhit).
Qed.

(** X15.  When the hitting block parses and the pitching block does not,
    [pull_data] raises [ValueError] with the hitting frame already stored:
    [hit_stats] holds it as parsed, every column still text, since
    [data_mung] is only reached after both blocks are parsed;
    [pitch_stats] is what it was. *)
Theorem pull_data_pitching_failure (self : TeamStats)
    (browse : string → string * string) hit e :
  clean_raw (browse (url self)).1 18 = Ok hit →
  clean_raw (browse (url self)).2 21 = Raise e →
  pull_data self browse =
    ({| headless := headless self;
        url := url self;
        hit_stats := Some hit;
        pitch_stats := pitch_stats self |}, Raise ValueError) ∧
  Forall (λ c, ∃ vs, c.2 = ObjectSeries vs) (cols hit).
Proof.
  unfold pull_data. destruct (browse (url self)) as [hit_text pitch_text].
  simpl. intros Hhit Hpitch. rewrite Hhit, Hpitch.
  rewrite (clean_raw_ValueError _ _ _ Hpitch). split; [done|].
  by apply clean_raw_all_text in Hhit.
Qed.

(** X16.  When [pull_data] returns, both blocks have parsed and both coercions
    have returned; [get_stats] gives the two coerced frames; their columns
    are the first 18 lines of the hitting block and the first 21 lines of
    the pitching block; and, the header lines of a block being distinct,
    a further [data_mung] on its stored frame changes nothing. *)
Theorem pull_data_success (self : TeamStats) (browse : string → string * string) :
  (pull_data self browse).2 = Ok () →
  ∃ hit pitch,
    clean_raw (browse (url self)).1 18 = Ok hit ∧
    clean_raw (browse (url self)).2 21 = Ok pitch ∧
    (data_mung hit).2 = Ok () ∧ (data_mung pitch).2 = Ok () ∧
    get_stats (pull_data self browse).1 =
      (Some (data_mung hit).1, Some (data_mung pitch).1) ∧
    columns (data_mung hit).1 = slice_to (split newline (browse (url self)).1) 18 ∧
    columns (data_mung pitch).1 = slice_to (split newline (browse (url self)).2) 21 ∧
    (NoDup (columns hit) →
       data_mung (data_mung hit).1 = ((data_mung hit).1, Ok ())) ∧
    (NoDup (columns pitch) →
       data_mung (data_mung pitch).1 = ((data_mung pitch).1, Ok ())).
Proof.
  unfold pull_data. destruct (browse (url self)) as [hit_text pitch_text].
  simpl. destruct (clean_raw hit_text 18) as [hit|e0] eqn:Hhit; [|done].
  destruct (clean_raw pitch_text 21) as [pitch|e1] eqn:Hpitch; [|done].
  destruct (data_mung hit) as [hit' [[]|e2]] eqn:Hmh; [|done].
  destruct (data_mung pitch) as [pitch' r] eqn:Hmp. simpl. intros ->.
  exists hit, pitch. rewrite Hmh, Hmp. simpl.
  split; [done|]. split; [done|]. split; [done|]. split; [done|].
  split; [done|].
  pose proof (data_mung_columns hit) as Hch. rewrite Hmh in Hch.
  pose proof (data_mung_columns pitch) as Hcp. rewrite Hmp in Hcp.
  cbn [fst] in Hch, Hcp.
  split; [by rewrite Hch; apply clean_raw_columns|].
  split; [by rewrite Hcp; apply clean_raw_columns|].
  split; intros Hnd.
  - pose proof (data_mung_again hit Hnd) as Ha. by rewrite Hmh in Ha.
  - pose proof (data_mung_again pitch Hnd) as Ha. by rewrite Hmp in Ha.
Qed.

End Fetch.

(** * The further properties on sample pages *)

Section SamplePages.
Import DecimalCast.
Import Sample.
Import Pages.

Example pages_split_join : split newline hit_text = hit_headers ++ record_lines hit_records.
Proof. reflexivity. Qed.

Example pages_pull_data_returns : (pull_data TeamStats_init browse).2 = Ok ().
Proof. reflexivity. Qed.

Example pages_ragged_raises : (data_mung ragged).2 = Raise TypeError.
Proof. reflexivity. Qed.

Example pages_empty_text :
  clean_raw "" 18 = Ok {| index := 0; cols := [("", ObjectSeries [])] |}.
Proof. reflexivity. Qed.

Lemma clean_raw_no_marker_witness :
  clean_raw "" 18 = Ok {| index := 0; cols := [("", ObjectSeries [])] |}.
Proof.
  apply (clean_raw_no_marker "" 18).
  intros i line Hi. simpl in Hi. lia.
Defined.

Lemma clean_raw_too_few_headers_witness :
  window_rows (slice_from (split newline text) 0) ≠ [] ∧
  (length (slice_to (split newline text) 0) < 2)%nat ∧
  clean_raw text 0 = Raise ValueError.
Proof.
  assert (Hrows : window_rows (slice_from (split newline text) 0) ≠ []) by done.
  assert (Hfew : (length (slice_to (split newline text) 0) < 2)%nat)
    by (simpl; lia).
  split; [exact Hrows|]. split; [exact Hfew|].
  exact (clean_raw_too_few_headers text 0 Hrows Hfew).
Defined.

Lemma scan_row_length_witness :
  scan lines = Ok [["Boston Red Sox"; "10"; ".250"; ".330"];
                   ["New York Yankees"; "12"; ".275"; ".301"]] ∧
  ∃ (i : nat) num_data,
    marker_indices lines !! 0%nat = Some i ∧
    lines !! (i + 2)%nat = Some num_data ∧
    length ["Boston Red Sox"; "10"; ".250"; ".330"] =
      (2 + count_char space num_data)%nat.
Proof.
  split; [reflexivity|].
  exact (scan_row_length lines _ 0 _ eq_refl eq_refl).
Defined.

Lemma scan_row_round_trip_witness :
  scan lines = Ok [["Boston Red Sox"; "10"; ".250"; ".330"];
                   ["New York Yankees"; "12"; ".275"; ".301"]] ∧
  join space ["10"; ".250"; ".330"] = "10 .250 .330".
Proof.
  split; [reflexivity|].
  destruct (scan_row_round_trip lines _ 0 _ eq_refl eq_refl)
    as (i & team_name & num_data & Hi & _ & Hd & _ & _ & Hjoin).
  change (Some 0%nat = Some i) in Hi. injection Hi as <-.
  change (Some "10 .250 .330" = Some num_data) in Hd. injection Hd as <-.
  exact Hjoin.
Defined.

Lemma clean_raw_cells_witness :
  clean_raw text 4 = Ok frame ∧
  ∃ vs, cols frame !! 2%nat = Some ("AVG", ObjectSeries vs) ∧
        vs !! 1%nat = Some (Some ".275").
Proof.
  split; [exact sample_clean_raw|].
  destruct (clean_raw_cells text 4 frame sample_clean_raw) as (_ & _ & Hcells).
  destruct (Hcells 2%nat "AVG" eq_refl) as (vs & Hvs & _ & Hk).
  exists vs. split; [exact Hvs|].
  exact (Hk 1%nat ["New York Yankees"; "12"; ".275"; ".301"] eq_refl).
Defined.

Lemma clean_raw_records_witness :
  split newline hit_text = hit_headers ++ record_lines hit_records ∧
  Forall well_formed hit_records ∧
  Forall (λ r, length (record_row r) = length hit_headers) hit_records ∧
  ∃ df, clean_raw hit_text 18 = Ok df ∧ columns df = hit_headers ∧
        index df = 1%nat.
Proof.
  assert (Hwf : Forall well_formed hit_records).
  { repeat constructor; unfold len_str; simpl; lia. }
  assert (Hw : Forall (λ r, length (record_row r) = length hit_headers) hit_records)
    by (repeat constructor).
  split; [reflexivity|]. split; [exact Hwf|]. split; [exact Hw|].
  destruct (clean_raw_records hit_text hit_headers hit_records eq_refl Hwf Hw)
    as (df & Hdf & Hc & Hi & _).
  exists df. split; [exact Hdf|]. split; [exact Hc|exact Hi].
Defined.

Lemma pages_ragged_StatTable : StatTable ragged.
Proof.
  split.
  - apply (bool_decide_unpack _). exact I.
  - repeat constructor.
Defined.

Lemma data_mung_abort_witness :
  StatTable ragged ∧ (data_mung ragged).2 = Raise TypeError ∧
  cols (data_mung ragged).1 =
    [("H", IntSeries [1; 3]);
     ("AB", ObjectSeries [Some "2"; None]);
     ("R", ObjectSeries [Some "5"; Some "6"])] ∧
  ∃ (j : nat) col s,
    cols ragged !! j = Some (col, s) ∧ astype s (target col) = Raise TypeError.
Proof.
  split; [exact pages_ragged_StatTable|]. split; [reflexivity|].
  split; [reflexivity|].
  destruct (data_mung_abort ragged TypeError pages_ragged_StatTable eq_refl)
    as (j & col & s & Hj & Hs & _).
  by exists j, col, s.
Defined.

Lemma change_url_listed_name_witness :
  ("New York Yankees", "yankees") ∈ teams ∧
  url (change_url TeamStats_init "New York Yankees").1 =
    "https://www.mlb.com/yankees/stats/team/".
Proof.
  assert (Hin : ("New York Yankees", "yankees") ∈ teams).
  { apply list_elem_of_In. simpl. tauto. }
  split; [exact Hin|].
  by rewrite (change_url_listed_name TeamStats_init _ _ Hin).
Defined.

Lemma change_url_usual_spelling_witness :
  contains "philadelphia" (lower "Philadelphia Phillies") = true ∧
  change_url TeamStats_init "Philadelphia Phillies" =
    (TeamStats_init, Raise IndexError).
Proof.
  split; [reflexivity|].
  apply change_url_usual_spelling. left. reflexivity.
Defined.

Lemma pull_data_pitching_failure_witness :
  ∃ hit,
    clean_raw (short_browse (url TeamStats_init)).1 18 = Ok hit ∧
    clean_raw (short_browse (url TeamStats_init)).2 21 = Raise ValueError ∧
    pull_data TeamStats_init short_browse =
      ({| headless := true;
          url := url TeamStats_init;
          hit_stats := Some hit;
          pitch_stats := None |}, Raise ValueError).
Proof.
  destruct (clean_raw hit_text 18) as [hit|e] eqn:Hhit; [|discriminate Hhit].
  exists hit.
  assert (Hpitch : clean_raw short_pitch_text 21 = Raise ValueError)
    by reflexivity.
  split; [exact Hhit|]. split; [exact Hpitch|].
  exact (proj1 (pull_data_pitching_failure TeamStats_init short_browse hit
                  ValueError Hhit Hpitch)).
Defined.

Lemma pull_data_success_witness :
  (pull_data TeamStats_init browse).2 = Ok () ∧
  ∃ hit pitch,
    get_stats (pull_data TeamStats_init browse).1 = (Some hit, Some pitch) ∧
    columns hit = hit_headers ∧ columns pitch = pitch_headers.
Proof.
  split; [exact pages_pull_data_returns|].
  destruct (pull_data_success TeamStats_init browse pages_pull_data_returns)
    as (hit & pitch & _ & _ & _ & _ & Hget & Hch & Hcp & _).
  exists (data_mung hit).1, (data_mung pitch).1.
  split; [exact Hget|]. split; [exact Hch|exact Hcp].
Defined.

Example pages_last_two_untested :
  scan ["1"; "2"; "3"] = Ok [["2"; "3"]] ∧ scan ["abc"; "1"; "2"] = Ok [].
Proof. split; reflexivity. Qed.

Example pages_ragged_clean_raw : clean_raw ragged_text 4 = Ok ragged_frame.
Proof. reflexivity. Qed.

Example pages_long_clean_raw : clean_raw long_text 3 = Ok long_frame.
Proof. reflexivity. Qed.

Lemma pages_ragged_frame_StatTable : StatTable ragged_frame.
Proof.
  split.
  - apply (bool_decide_unpack _). exact I.
  - repeat constructor.
Qed.

Lemma pages_long_frame_StatTable : StatTable long_frame.
Proof.
  split.
  - apply (bool_decide_unpack _). exact I.
  - repeat constructor.
Qed.

(** C4, as the claim states it, fails.  The frame [clean_raw] makes of a
    block with a short record is a stat table; on it [data_mung] stops at
    the column ["AB"] with the [TypeError] of a missing value, which
    [except ValueError] does not catch.  The column ["AVG"], a name of the
    float-column set whose conversion to [float32] would return, is not
    converted: it is the text column it was.  The same happens, with
    [OverflowError], on a table without a missing value that holds an
    integer too long for the integer dtype. *)
Lemma data_mung_policy_counterexample :
  let avg := ObjectSeries [Some ".250"; None] in
  clean_raw ragged_text 4 = Ok ragged_frame ∧
  StatTable ragged_frame ∧
  "AVG" ∈ float_names ∧
  cols ragged_frame !! 3%nat = Some ("AVG", avg) ∧
  (∃ vs, astype avg float32_dtype = Ok (Float32Series vs)) ∧
  cols (data_mung ragged_frame).1 !! 3%nat = Some ("AVG", avg) ∧
  (data_mung ragged_frame).2 = Raise TypeError ∧
  StatTable long_frame ∧
  (data_mung long_frame).2 = Raise OverflowError ∧
  cols (data_mung long_frame).1 !! 2%nat =
    Some ("AVG", ObjectSeries [Some ".250"]).
Proof.
  intros avg.
  split; [reflexivity|]. split; [exact pages_ragged_frame_StatTable|].
  split; [by apply (bool_decide_unpack _)|]. split; [reflexivity|].
  split; [by eexists|]. split; [reflexivity|]. split; [reflexivity|].
  split; [exact pages_long_frame_StatTable|]. split; reflexivity.
Qed.

(** C6, as the claim states it, fails.  On the same stat table the column
    ["TEAM"] is one on which conversion fails on text that is no number,
    with [ValueError]; it is left as it was, but the call does not go on
    over every later column: it ends at ["AB"] with [TypeError], which
    reaches the caller, and the later column ["AVG"] is not treated,
    although treating it would change it. *)
Lemma data_mung_swallows_ValueError_counterexample :
  let team := ObjectSeries [Some "Boston Red Sox"; Some "New York Yankees"] in
  let avg := ObjectSeries [Some ".250"; None] in
  StatTable ragged_frame ∧
  cols ragged_frame !! 0%nat = Some ("TEAM", team) ∧
  astype team (target "TEAM") = Raise ValueError ∧
  cols (data_mung ragged_frame).1 !! 0%nat = Some ("TEAM", team) ∧
  (data_mung ragged_frame).2 = Raise TypeError ∧
  cols ragged_frame !! 3%nat = Some ("AVG", avg) ∧
  cols (data_mung ragged_frame).1 !! 3%nat = Some ("AVG", avg) ∧
  coerce "AVG" avg ≠ avg.
Proof.
  intros team avg.
  split; [exact pages_ragged_frame_StatTable|].
  do 6 (split; [reflexivity|]).
  discriminate.
Qed.

End SamplePages.
